(** * inventory-hunter: the fetch drivers of [src/driver.py]

    A shallow embedding of the four fetch drivers ([RequestsDriver],
    [SeleniumDriver], [PuppeteerDriver], [LeanAndMeanDriver]), of the
    result type [HttpGetResponse], of the driver repository and of the
    request/response messages exchanged with the fetch service, together
    with the properties the specification states about them.

    Python's effects are modelled by a state-and-exception monad [M]: the
    external collaborators (fetch service, HTTP server, browser, node
    script, perl, the random generator) are oracles of an environment
    [Env]; the observable effects (socket events, log records, files) are
    accumulated in a [State]. *)

From Stdlib Require QArith_base.
From Stdlib Require Import ZArith NArith Lia Ascii String.
From Stdlib.Strings Require Import Byte.
From stdpp Require Import base gmap strings list pretty.

Local Open Scope Z_scope.

(* ===================================================================== *)
(** ** Bytes *)
(* ===================================================================== *)

Abbreviation bytes := (list byte).

(** [six.int2byte]: the byte of a number below 256. *)
Definition int2byte (n : N) : byte :=
  match Byte.of_N n with
  | Some b => b
  | None => x00
  end.

(** [str.encode()] / [bytes.decode()] restricted to the one-byte code
    points a Rocq [string] holds. *)
Definition str_encode (s : string) : bytes := list_byte_of_string s.
Definition bytes_decode (b : bytes) : string := string_of_list_byte b.

(* ===================================================================== *)
(** ** The wire encoding of [worker_pb2] *)
(* ===================================================================== *)

Module Wire.

Local Open Scope N_scope.

(** The module [worker.worker_pb2] (the message classes [Request] and
    [Response] with [SerializeToString] and [ParseFromString]) is imported
    by [driver.py] but is not part of the sources.  The spec fixes the
    schema [RpcRequest { id: int64, url: string, timeout: int32 }],
    [RpcResponse { id: int64, status_code: int32, data: bytes }] and a
    "fixed, versionless binary encoding (field-tagged, variable-length)";
    the [_pb2] module and its two methods are those of protocol buffers.
    This module is that encoding: base-128 variable-length integers, a
    tag [(field << 3) | type] before every field, fields numbered 1, 2, 3
    in schema order, fields holding their default value omitted. *)

Definition mask64 : N := N.ones 64.

(** Modelled from the spec: the variable-length integers of the encoding,
    which [worker_pb2] relies on.  [EncodeVarint] writes seven bits per
    byte, least significant group first, the high bit set on every byte
    but the last.  A 64-bit value needs at most ten bytes, which bounds the
    loop. *)
Fixpoint EncodeVarint_loop (fuel : nat) (value : N) : bytes :=
  let bits := N.land value 127 in
  let value' := N.shiftr value 7 in
  match fuel with
  | O => [int2byte bits]
  | S fuel' =>
      if value' =? 0 then [int2byte bits]
      else int2byte (N.lor 128 bits) :: EncodeVarint_loop fuel' value'
  end.

Definition EncodeVarint (value : N) : bytes :=
  EncodeVarint_loop 9 (N.land value mask64).

(** Modelled from the spec: reading a variable-length integer.
    [DecodeVarint] accumulates seven bits per byte until a byte without
    the high bit; [None] when the buffer ends first ("Truncated message")
    or when the shift reaches 64 ("Too many bytes when decoding
    varint"). *)
Fixpoint DecodeVarint_loop (shift result : N) (buffer : bytes)
  : option (N * bytes) :=
  match buffer with
  | [] => None
  | b :: rest =>
      let result' := N.lor result (N.shiftl (N.land (Byte.to_N b) 127) shift) in
      if N.land (Byte.to_N b) 128 =? 0 then Some (N.land result' mask64, rest)
      else
        let shift' := shift + 7 in
        if 64 <=? shift' then None
        else DecodeVarint_loop shift' result' rest
  end.

Definition DecodeVarint (buffer : bytes) : option (N * bytes) :=
  DecodeVarint_loop 0 0 buffer.

(** Two's complement: a signed field is written as the 64-bit pattern of
    its value and read back from the low [bits] bits. *)
Definition unsigned64 (z : Z) : N := Z.to_N (z mod 2 ^ 64).

Definition signed (bits : N) (n : N) : Z :=
  let m := N.land n (N.ones bits) in
  let signbit := N.shiftl 1 (bits - 1) in
  Z.of_N (N.lxor m signbit) - Z.of_N signbit.

Definition in_int32 (z : Z) : Prop := (- 2 ^ 31 <= z < 2 ^ 31)%Z.
Definition in_int64 (z : Z) : Prop := (- 2 ^ 63 <= z < 2 ^ 63)%Z.

Definition in_int32b (z : Z) : bool :=
  ((- 2 ^ 31 <=? z) && (z <? 2 ^ 31))%Z.
Definition in_int64b (z : Z) : bool :=
  ((- 2 ^ 63 <=? z) && (z <? 2 ^ 63))%Z.

(** The payload of one field, by wire type.  A group (wire types 3 and 4)
    is not part of the schema: the reader skips it whole. *)
Inductive wire_value :=
| WVarint (n : N)          (* wire type 0 *)
| WFixed64 (b : bytes)     (* wire type 1 *)
| WLen (b : bytes)         (* wire type 2 *)
| WGroup                   (* wire types 3 ... 4, skipped *)
| WFixed32 (b : bytes).    (* wire type 5 *)

Definition field : Type := N * wire_value.

Definition TagBytes (field_number wire_type : N) : bytes :=
  EncodeVarint (N.lor (N.shiftl field_number 3) wire_type).

Definition encode_field (f : field) : bytes :=
  match f with
  | (fn, WVarint n) => TagBytes fn 0 ++ EncodeVarint n
  | (fn, WFixed64 b) => TagBytes fn 1 ++ b
  | (fn, WLen b) => TagBytes fn 2 ++ EncodeVarint (N.of_nat (length b)) ++ b
  | (fn, WGroup) => TagBytes fn 3 ++ TagBytes fn 4
  | (fn, WFixed32 b) => TagBytes fn 5 ++ b
  end.

Definition encode_fields (fs : list field) : bytes :=
  concat (map encode_field fs).

(** Cut [n] bytes off the front of the buffer; [None] when it is shorter
    ("Truncated message"). *)
Definition take_exact (n : nat) (buffer : bytes) : option (bytes * bytes) :=
  if (n <=? length buffer)%nat then Some (firstn n buffer, skipn n buffer)
  else None.

(** Modelled from the spec: the tag before a field.  A tag is a 32-bit
    number, so a field number has at most 29 bits; field number 0 is
    illegal.  The result is the field number and the wire type. *)
Definition DecodeTag (buffer : bytes) : option (N * N * bytes) :=
  match DecodeVarint buffer with
  | None => None
  | Some (tag, rest) =>
      if 2 ^ 32 <=? tag then None
      else if N.shiftr tag 3 =? 0 then None
      else Some (N.shiftr tag 3, N.land tag 7, rest)
  end.

(** Modelled from the spec: skipping an unknown group.  [open] holds the
    field numbers of the groups entered and not yet left, innermost first;
    the fields inside are skipped by wire type until the end-group tag of
    the outermost one, which must carry the number of the group it ends.
    Every step consumes at least a tag, which bounds the loop. *)
Fixpoint skip_group (fuel : nat) (open : list N) (buffer : bytes)
  : option bytes :=
  match fuel with
  | O => None
  | S fuel' =>
      match DecodeTag buffer with
      | None => None
      | Some (field_number, wire_type, rest) =>
          match wire_type with
          | 0 =>
              match DecodeVarint rest with
              | Some (_, rest') => skip_group fuel' open rest'
              | None => None
              end
          | 1 =>
              match take_exact 8 rest with
              | Some (_, rest') => skip_group fuel' open rest'
              | None => None
              end
          | 2 =>
              match DecodeVarint rest with
              | Some (len, rest') =>
                  match take_exact (N.to_nat len) rest' with
                  | Some (_, rest'') => skip_group fuel' open rest''
                  | None => None
                  end
              | None => None
              end
          | 3 => skip_group fuel' (field_number :: open) rest
          | 4 =>
              match open with
              | [] => None
              | innermost :: outer =>
                  if field_number =? innermost then
                    match outer with
                    | [] => Some rest
                    | _ :: _ => skip_group fuel' outer rest
                    end
                  else None
              end
          | 5 =>
              match take_exact 4 rest with
              | Some (_, rest') => skip_group fuel' open rest'
              | None => None
              end
          | _ => None
          end
      end
  end.

(** Modelled from the spec: the field-tagged layout of a message, read
    side.  One field: its tag, then a payload according to the wire type.
    A group is skipped up to its end tag; an end-group tag outside a group
    and the undefined wire types 6 and 7 are errors. *)
Definition decode_field (buffer : bytes) : option (field * bytes) :=
  match DecodeTag buffer with
  | None => None
  | Some (field_number, wire_type, rest) =>
      match wire_type with
      | 0 =>
          match DecodeVarint rest with
          | Some (v, rest') => Some ((field_number, WVarint v), rest')
          | None => None
          end
      | 1 =>
          match take_exact 8 rest with
          | Some (b, rest') => Some ((field_number, WFixed64 b), rest')
          | None => None
          end
      | 2 =>
          match DecodeVarint rest with
          | Some (len, rest') =>
              match take_exact (N.to_nat len) rest' with
              | Some (b, rest'') => Some ((field_number, WLen b), rest'')
              | None => None
              end
          | None => None
          end
      | 3 =>
          match skip_group (length rest) [field_number] rest with
          | Some rest' => Some ((field_number, WGroup), rest')
          | None => None
          end
      | 5 =>
          match take_exact 4 rest with
          | Some (b, rest') => Some ((field_number, WFixed32 b), rest')
          | None => None
          end
      | _ => None
      end
  end.

(** Modelled from the spec: the parse loop of a message, [while pos !=
    end].  Every field consumes at least its tag byte, so [length buffer]
    iterations always suffice. *)
Fixpoint decode_fields_loop (fuel : nat) (buffer : bytes)
  : option (list field) :=
  match buffer with
  | [] => Some []
  | _ :: _ =>
      match fuel with
      | O => None
      | S fuel' =>
          match decode_field buffer with
          | None => None
          | Some (f, rest) =>
              match decode_fields_loop fuel' rest with
              | Some fs => Some (f :: fs)
              | None => None
              end
          end
      end
  end.

Definition decode_fields (buffer : bytes) : option (list field) :=
  decode_fields_loop (length buffer) buffer.

(** The fields a serializer writes: a field number of at most 29 bits, a
    varint of at most 64 bits, a length that fits a varint, fixed payloads
    of their size, no group. *)
Definition valid_field (f : field) : Prop :=
  0 < f.1 < 2 ^ 29 ∧
  match f.2 with
  | WVarint n => n < 2 ^ 64
  | WLen b => N.of_nat (length b) < 2 ^ 64
  | WFixed64 b => length b = 8%nat
  | WFixed32 b => length b = 4%nat
  | WGroup => False
  end.

End Wire.

(** Payloads short enough for their length to be written (below 2^64
    bytes). *)
Definition short (b : bytes) : Prop := (N.of_nat (length b) < 2 ^ 64)%N.

(* ===================================================================== *)
(** ** Exceptions, the world, and the monad of effects *)
(* ===================================================================== *)

(** The exception classes the modelled calls can raise. *)
Inductive ExcClass :=
| ConnectionRefusedError   (* asyncio.open_connection: nobody listens *)
| ConnectionResetError     (* reader.read(): the peer reset the stream *)
| DecodeError              (* Response.ParseFromString *)
| ValueError               (* assignment to a message field, out of range *)
| FileNotFoundError        (* open(html_file), subprocess.run *)
| WebDriverException       (* selenium *)
| RequestException         (* requests.get *)
| Exception                (* raise Exception(...) in the constructors *)
| FileExistsError          (* Path.mkdir on a path that is a regular file *)
| UnicodeDecodeError       (* bytes.decode('ascii') *)
| KeyError                 (* getpass.getuser(): no name for the user id *)
| TypeError                (* max() of values that do not compare *)
| OverflowError.           (* int() of an infinite float *)

Record PyException := Exc { exc_class : ExcClass; exc_str : string }.

Inductive Outcome (A : Type) :=
| Returned (a : A)
| Raised (e : PyException).
Arguments Returned {A} a.
Arguments Raised {A} e.

Inductive Level := DEBUG | WARNING.

Record LogRecord := Log { levelname : Level; message : string }.

(** What happens on the stream connection to the fetch service, in order. *)
Inductive SocketEvent :=
| EvOpen (host : string) (port : Z)
| EvWrite (data : bytes)
| EvWriteEof
| EvDrain
| EvRead
| EvClose
| EvWaitClosed.

(** The mutable part of the world: the file system, the socket events and
    the log records, oldest first.  [files] holds the regular files by path
    with their contents; a directory made by [mkdir] is recorded as an
    entry under its path followed by a slash (see [dir_entry]).  Symbolic
    links and permissions are not modelled. *)
Record State := mkState {
  files : gmap string string;
  socket : list SocketEvent;
  log : list LogRecord;
}.

Definition initial_state : State := mkState ∅ [] [].

(** A loaded page of the headless browser: [driver.page_source] and
    [driver.save_screenshot(filename)].  The latter yields the image data
    written, [None] when the write failed with an [IOError] (selenium then
    returns [False]), or raises. *)
Record Page := mkPage {
  page_source : string;
  save_screenshot : string → Outcome (option string);
}.

Record CompletedProcess := mkCompletedProcess {
  returncode : Z;
  stdout : string;
}.

(** [requests.Response], the attributes the driver reads. *)
Record RequestsResponse := mkRequestsResponse {
  r_text : string;
  r_url : string;
  r_status_code : Z;
}.

(** [Response.ok]: no 4xx or 5xx status. *)
Definition r_ok (r : RequestsResponse) : bool :=
  negb ((400 <=? r_status_code r) && (r_status_code r <? 600)).

(** The call of the exchange at which a failing connection raises. *)
Inductive StreamStep := AtWriteEof | AtDrain | AtRead.

(** The external collaborators, as oracles. *)
Record Env := mkEnv {
  (** the peer behind [host:port]: [None] when the connection is refused,
      otherwise the function from the bytes received until the client's
      end-of-output to the fate of the connection: what the client's
      read-to-EOF yields, or the exception with which the connection
      fails *)
  fetch_service : string → Z → option (bytes → Outcome bytes);
  (** where a failing connection raises: in [writer.write_eof()], in
      [await writer.drain()] or in [await reader.read()] *)
  lost_at : StreamStep;
  (** [requests.get(url, headers=..., timeout=...)] *)
  requests_get : string → gmap string string → Z → Outcome RequestsResponse;
  (** [webdriver.Chrome(driver_path, options=...)] followed by
      [driver.get(url)] *)
  chrome_start : string → list string → Outcome unit;
  chrome_get : string → Outcome Page;
  (** [subprocess.run(cmd, ...)]: how the process completes (an exception
      when the program cannot be started) and the files it leaves behind *)
  subprocess_run : list string → Outcome CompletedProcess * gmap string string;
  (** [random.choice]: the index drawn for the [i]-th letter of the
      replacement of a variable *)
  random_choice : string → nat → nat;
  (** the order in which a [set] of strings is iterated *)
  set_order : list string → list string;
  (** [getpass.getuser()], the working directory, the directory of
      [driver.py] *)
  getuser : Outcome string;
  cwd : string;
  module_dir : string;
}.

(** Computations: read the environment, update the state, return or raise.
    The state reached when an exception is raised is kept: effects before
    the [raise] are not undone. *)
Definition M (A : Type) : Type := Env → State → Outcome A * State.

#[global] Instance M_ret : MRet M := λ A a _ s, (Returned a, s).

#[global] Instance M_bind : MBind M := λ A B f m env s,
  match m env s with
  | (Returned a, s') => f a env s'
  | (Raised e, s') => (Raised e, s')
  end.

Definition raise {A} (e : PyException) : M A := λ _ s, (Raised e, s).

Definition ask : M Env := λ env s, (Returned env, s).

Definition lift {A} (o : Outcome A) : M A := λ _ s, (o, s).

(** [try: body except Exception as e: handler(e)] *)
Definition try_except {A} (body : M A) (handler : PyException → M A) : M A :=
  λ env s,
    match body env s with
    | (Returned a, s') => (Returned a, s')
    | (Raised e, s') => handler e env s'
    end.

Definition emit (ev : SocketEvent) : M unit := λ _ s,
  (Returned (), mkState (files s) (socket s ++ [ev]) (log s)).

Definition logging (lvl : Level) (msg : string) : M unit := λ _ s,
  (Returned (), mkState (files s) (socket s) (log s ++ [Log lvl msg])).

Definition logging_debug := logging DEBUG.
Definition logging_warning := logging WARNING.

Definition write_file (path contents : string) : M unit := λ _ s,
  (Returned (), mkState (<[path := contents]> (files s)) (socket s) (log s)).

(** [with open(path, 'r') as f: f.read()] *)
Definition read_file (path : string) : M string := λ _ s,
  match files s !! path with
  | Some contents => (Returned contents, s)
  | None =>
      (Raised (Exc FileNotFoundError ("No such file or directory: " +:+ path)), s)
  end.

(** [os.path.exists(path)], [Path.is_file()] *)
Definition path_exists (path : string) : M bool := λ _ s,
  (Returned (bool_decide (is_Some (files s !! path))), s).

(** *** [pathlib] paths *)

(** [s.split('/')] *)
Fixpoint split_slash (s : string) : list string :=
  match s with
  | EmptyString => [EmptyString]
  | String a s' =>
      if Ascii.eqb a "/"%char then EmptyString :: split_slash s'
      else
        match split_slash s' with
        | [] => [String a EmptyString]
        | part :: parts => String a part :: parts
        end
  end.

(** The root of a POSIX path: exactly two leading slashes are kept, any
    other number of them is one slash. *)
Definition path_root (s : string) : string :=
  match s with
  | String "/"%char (String "/"%char (String "/"%char _)) => "/"
  | String "/"%char (String "/"%char _) => "//"
  | String "/"%char _ => "/"
  | _ => EmptyString
  end.

(** The components of a path: empty components and [.] are dropped, [..]
    is kept. *)
Definition path_parts (s : string) : list string :=
  List.filter (λ part, negb (String.eqb part EmptyString || String.eqb part "."))
    (split_slash s).

(** [str(path)] *)
Definition path_str (root : string) (parts : list string) : string :=
  match root, parts with
  | EmptyString, [] => "."
  | _, _ => root +:+ String.concat "/" parts
  end.

(** [Path(dir) / name]: an absolute [name] replaces [dir]. *)
Definition path_join (dir name : string) : string :=
  if String.eqb (path_root name) EmptyString
  then path_str (path_root dir) (path_parts dir ++ path_parts name)
  else path_str (path_root name) (path_parts name).

(** The entry that records the directory [path]. *)
Definition dir_entry (path : string) : string := path +:+ "/".

(** [Path(path).mkdir(exist_ok=True)]: [FileExistsError] is raised when
    the path exists and is not a directory. *)
Definition mkdir_exist_ok (path : string) : M unit := λ _ s,
  match files s !! path with
  | Some _ =>
      (Raised (Exc FileExistsError ("[Errno 17] File exists: " +:+ path)), s)
  | None =>
      (Returned (),
       mkState (<[dir_entry path := EmptyString]> (files s)) (socket s) (log s))
  end.

(** [shutil.copy(src, dst)] *)
Definition shutil_copy (src dst : string) : M unit :=
  contents ← read_file src;
  write_file dst contents.

(** ** The asyncio stream primitives *)

(** [asyncio.open_connection(host, port)]: the (reader, writer) pair is the
    peer's behaviour. *)
Definition open_connection (host : string) (port : Z)
  : M (bytes → Outcome bytes) := λ env s,
  let s' := mkState (files s) (socket s ++ [EvOpen host port]) (log s) in
  match fetch_service env host port with
  | Some peer => (Returned peer, s')
  | None => (Raised (Exc ConnectionRefusedError "Connect call failed"), s')
  end.

(** The bytes written on the connection opened last, in order. *)
Fixpoint written_from (acc : bytes) (evs : list SocketEvent) : bytes :=
  match evs with
  | [] => acc
  | EvOpen _ _ :: evs' => written_from [] evs'
  | EvWrite data :: evs' => written_from (acc ++ data) evs'
  | _ :: evs' => written_from acc evs'
  end.

Definition written (evs : list SocketEvent) : bytes := written_from [] evs.

Definition StreamStep_eqb (a b : StreamStep) : bool :=
  match a, b with
  | AtWriteEof, AtWriteEof | AtDrain, AtDrain | AtRead, AtRead => true
  | _, _ => false
  end.

(** A call on a connection that fails raises the connection's exception
    when it is the call at which the failure shows. *)
Definition notice (step : StreamStep) (peer : bytes → Outcome bytes)
  : M unit := λ env s,
  if StreamStep_eqb (lost_at env) step then
    match peer (written (socket s)) with
    | Raised e => (Raised e, s)
    | Returned _ => (Returned (), s)
    end
  else (Returned (), s).

Definition writer_write (data : bytes) : M unit := emit (EvWrite data).
Definition writer_write_eof (peer : bytes → Outcome bytes) : M unit :=
  emit EvWriteEof;; notice AtWriteEof peer.
Definition writer_drain (peer : bytes → Outcome bytes) : M unit :=
  emit EvDrain;; notice AtDrain peer.
Definition writer_close : M unit := emit EvClose.
Definition writer_wait_closed : M unit := emit EvWaitClosed.

(** [await reader.read()]: everything the peer sends until end-of-stream,
    or the exception of a connection that failed. *)
Definition reader_read (peer : bytes → Outcome bytes) : M bytes := λ _ s,
  let s' := mkState (files s) (socket s ++ [EvRead]) (log s) in
  (peer (written (socket s)), s').

(** [subprocess.run(cmd, ..., check=False)] *)
Definition run_process (cmd : list string) : M CompletedProcess := λ env s,
  let '(r, created) := subprocess_run env cmd in
  (r, mkState (created ∪ files s) (socket s) (log s)).

(* ===================================================================== *)
(** ** The messages [Request] and [Response] of [worker_pb2] *)
(* ===================================================================== *)

(** Modelled from the spec: the integer fields are [int64] and [int32];
    assignment to a field of a [worker_pb2] message checks the range of
    the field's type and raises [ValueError] outside it. *)
Definition check_range (ok : bool) (what : string) : Outcome unit :=
  if ok then Returned ()
  else Raised (Exc ValueError ("Value out of range: " +:+ what)).

Module Request.

(** Modelled from the spec: [RpcRequest { id: int64, url: string,
    timeout: int32 }], the class [worker_pb2.Request].  A [string] stands
    for the bytes of its UTF-8 encoding. *)
Record t := mk { id : Z; url : string; timeout : Z }.

(** [Request()]: every field at its default. *)
Definition new : t := mk 0 EmptyString 0.

Definition set_id (v : Z) (r : t) : Outcome t :=
  match check_range (Wire.in_int64b v) (pretty v) with
  | Returned _ => Returned (mk v (url r) (timeout r))
  | Raised e => Raised e
  end.

Definition set_url (v : string) (r : t) : Outcome t :=
  Returned (mk (id r) v (timeout r)).

Definition set_timeout (v : Z) (r : t) : Outcome t :=
  match check_range (Wire.in_int32b v) (pretty v) with
  | Returned _ => Returned (mk (id r) (url r) v)
  | Raised e => Raised e
  end.

Definition to_fields (r : t) : list Wire.field :=
  (if id r =? 0 then [] else [(1%N, Wire.WVarint (Wire.unsigned64 (id r)))])
  ++ (if String.eqb (url r) EmptyString then []
      else [(2%N, Wire.WLen (str_encode (url r)))])
  ++ (if timeout r =? 0 then []
      else [(3%N, Wire.WVarint (Wire.unsigned64 (timeout r)))]).

(** Modelled from the spec: [Request.SerializeToString], absent from the
    sources: the fields that differ from their default, in field order. *)
Definition SerializeToString (r : t) : bytes :=
  Wire.encode_fields (to_fields r).

(** Modelled from the spec: [Request.ParseFromString], absent from the
    sources.  A field seen on the wire is merged into the message: the last
    occurrence wins, an unknown field or a known one with another wire
    type is skipped. *)
Definition merge (r : t) (f : Wire.field) : t :=
  match f with
  | (1%N, Wire.WVarint n) => mk (Wire.signed 64 n) (url r) (timeout r)
  | (2%N, Wire.WLen b) => mk (id r) (bytes_decode b) (timeout r)
  | (3%N, Wire.WVarint n) => mk (id r) (url r) (Wire.signed 32 n)
  | _ => r
  end.

Definition ParseFromString (data : bytes) : option t :=
  match Wire.decode_fields data with
  | Some fs => Some (fold_left merge fs new)
  | None => None
  end.

End Request.

Module Response.

(** Modelled from the spec: [RpcResponse { id: int64, status_code: int32,
    data: bytes }], the class [worker_pb2.Response]. *)
Record t := mk { id : Z; status_code : Z; data : bytes }.

(** [Response()]: every field at its default. *)
Definition new : t := mk 0 0 [].

Definition to_fields (r : t) : list Wire.field :=
  (if id r =? 0 then [] else [(1%N, Wire.WVarint (Wire.unsigned64 (id r)))])
  ++ (if status_code r =? 0 then []
      else [(2%N, Wire.WVarint (Wire.unsigned64 (status_code r)))])
  ++ (match data r with
      | [] => []
      | _ :: _ => [(3%N, Wire.WLen (data r))]
      end).

(** Modelled from the spec: [Response.SerializeToString], absent from the
    sources: the fields that differ from their default, in field order. *)
Definition SerializeToString (r : t) : bytes :=
  Wire.encode_fields (to_fields r).

Definition merge (r : t) (f : Wire.field) : t :=
  match f with
  | (1%N, Wire.WVarint n) => mk (Wire.signed 64 n) (status_code r) (data r)
  | (2%N, Wire.WVarint n) => mk (id r) (Wire.signed 32 n) (data r)
  | (3%N, Wire.WLen b) => mk (id r) (status_code r) b
  | _ => r
  end.

(** Modelled from the spec: [Response.ParseFromString], absent from the
    sources, on a fresh message; [None] stands for the [DecodeError] it
    raises. *)
Definition ParseFromString (data : bytes) : option t :=
  match Wire.decode_fields data with
  | Some fs => Some (fold_left merge fs new)
  | None => None
  end.

(** A response as the service can build one: integer fields within the
    range of their types. *)
Definition well_formed (r : t) : Prop :=
  Wire.in_int64 (id r) ∧ Wire.in_int32 (status_code r).

End Response.

(* ===================================================================== *)
(** ** [HttpGetResponse] and the drivers *)
(* ===================================================================== *)

(** The double-quote character of the f-string [--user-agent="..."]. *)
Definition dquote : string := String (Ascii.ascii_of_nat 34) EmptyString.

Definition user_agent : string :=
  "Mozilla/5.0 (X11; Linux x86_64) AppleWebKit/537.36 (KHTML, like Gecko) Chrome/90.0.4427.0 Safari/537.36".

(** The [url] argument of [get]: an object with a string form ([str(url)])
    and a [nickname]. *)
Record Target := mkTarget {
  str : string;
  nickname : string;
}.

(** The values [HttpGetResponse.text] holds: [str] from three drivers,
    [bytes] from [LeanAndMeanDriver]. *)
Inductive Body :=
| Text (s : string)
| Bytes (b : bytes).

(** The values [HttpGetResponse.url] holds: the [url] object passed to
    [get], or the string [r.url] of [requests]. *)
Inductive UrlValue :=
| UrlObj (u : Target)
| UrlStr (s : string).

Record HttpGetResponse := mkHttpGetResponse {
  text : Body;
  url : UrlValue;
  status_code : option Z;   (* [None] is Python's [None] *)
}.

(** [HttpGetResponse.__init__(self, text, url, **kwargs)] *)
Definition HttpGetResponse_init (text : Body) (url : UrlValue)
    (kwargs : gmap string Z) : HttpGetResponse :=
  {| text := text;
     url := url;
     status_code := kwargs !! "status_code" |}.

(** [Driver.__init__]: the attributes every driver has.  [DriverRepo], the
    only caller, passes both keywords. *)
Record Driver := mkDriver {
  data_dir : string;
  timeout : Z;
}.

(** What [def get(self, url) -> HttpGetResponse] evaluates to: a response
    object, or [None] when the body of [get] ends without a [return]. *)
Abbreviation GetResult := (option HttpGetResponse).

(** The abstract base class: a driver has the base attributes and [get]. *)
Class DriverClass (D : Type) := {
  base : D → Driver;
  get : D → Target → M GetResult;
}.

(** *** SeleniumDriver *)

Record ChromeOptions := mkChromeOptions {
  page_load_strategy : string;
  arguments : list string;
}.

Record SeleniumDriver := mkSeleniumDriver {
  selenium_base : Driver;
  selenium_path : string;
  driver_path : string;
  options : ChromeOptions;
}.

Definition driver_paths : list string :=
  ["/usr/bin/chromedriver"; "/usr/local/bin/chromedriver"].

(** [re.findall(b'cdc_[^\' ]+', data)]: the matches from left to right,
    none overlapping another; a match is [cdc_] followed by as many bytes
    other than a quote and a space as there are, at least one. *)
Definition is_variable_char (a : Ascii.ascii) : bool :=
  negb (Ascii.eqb a "'"%char || Ascii.eqb a " "%char).

Fixpoint span_variable (s : string) : string * string :=
  match s with
  | EmptyString => (EmptyString, EmptyString)
  | String a s' =>
      if is_variable_char a then
        let '(body, rest) := span_variable s' in (String a body, rest)
      else (EmptyString, s)
  end.

Definition match_cdc (s : string) : option (string * string) :=
  match s with
  | String "c"%char (String "d"%char (String "c"%char (String "_"%char tail))) =>
      match span_variable tail with
      | (EmptyString, _) => None
      | (body, rest) => Some ("cdc_" +:+ body, rest)
      end
  | _ => None
  end.

Fixpoint re_findall_cdc_loop (fuel : nat) (data : string) : list string :=
  match fuel with
  | O => []
  | S fuel' =>
      match data with
      | EmptyString => []
      | String _ data' =>
          match match_cdc data with
          | Some (m, rest) => m :: re_findall_cdc_loop fuel' rest
          | None => re_findall_cdc_loop fuel' data'
          end
      end
  end.

Definition re_findall_cdc (data : string) : list string :=
  re_findall_cdc_loop (String.length data) data.

(** [m.decode('ascii')] *)
Definition is_ascii (m : string) : bool :=
  forallb (λ a, (Ascii.nat_of_ascii a <? 128)%nat) (list_ascii_of_string m).

Definition decode_ascii (m : string) : Outcome string :=
  if is_ascii m then Returned m
  else Raised (Exc UnicodeDecodeError
                 "'ascii' codec can't decode byte: ordinal not in range(128)").

(** [[m.decode('ascii') for m in matches]] *)
Fixpoint decode_all (matches : list string) : Outcome (list string) :=
  match matches with
  | [] => Returned []
  | m :: matches' =>
      match decode_ascii m with
      | Raised e => Raised e
      | Returned v =>
          match decode_all matches' with
          | Raised e => Raised e
          | Returned vs => Returned (v :: vs)
          end
      end
  end.

(** [for v in set(variables)]: every distinct variable once, in the order
    the environment decides. *)
Definition set_iter (env : Env) (variables : list string) : list string :=
  let distinct := remove_dups variables in
  let first :=
    List.filter (λ v, bool_decide (v ∈ distinct))
      (remove_dups (set_order env distinct)) in
  first ++ List.filter (λ v, negb (bool_decide (v ∈ first))) distinct.

Definition ascii_letters : string :=
  "abcdefghijklmnopqrstuvwxyzABCDEFGHIJKLMNOPQRSTUVWXYZ".

(** [''.join(random.choice(string.ascii_letters) for i in range(len(v)))] *)
Definition random_replacement (env : Env) (v : string) : string :=
  string_of_list_ascii
    (map (λ i, nth (random_choice env v i mod 52)
                 (list_ascii_of_string ascii_letters) "a"%char)
       (seq 0 (String.length v))).

(** The body of [for v in variables]. *)
Definition patch_variable (dst v : string) : M unit :=
  env ← ask;
  let replacement := random_replacement env v in
  logging_debug ("found variable in chromedriver: " +:+ v
                 +:+ ", replacing with " +:+ replacement);;
  let cmd := ["perl"; "-pi"; "-e"; "s/" +:+ v +:+ "/" +:+ replacement +:+ "/g";
              dst] in
  r ← run_process cmd;
  if negb (returncode r =? 0) then
    logging_warning ("chromedriver patch failed: " +:+ stdout r)
  else mret ().

Fixpoint for_each {A} (l : list A) (body : A → M unit) : M unit :=
  match l with
  | [] => mret ()
  | a :: l' => body a;; for_each l' body
  end.

(** The loop over [driver_paths]: the first existing one is copied to
    [self.driver_path], the copy is patched once for every variable found
    in the original, then [break]. *)
Fixpoint install_chromedriver (paths : list string) (dst : string) : M unit :=
  match paths with
  | [] => mret ()
  | p :: paths' =>
      found ← path_exists p;
      if (found : bool) then
        shutil_copy p dst;;
        data ← read_file p;
        variables ← lift (decode_all (re_findall_cdc data));
        env ← ask;
        for_each (set_iter env variables) (patch_variable dst)
      else install_chromedriver paths' dst
  end.

Definition SeleniumDriver_init (data_dir : string) (timeout : Z)
  : M SeleniumDriver :=
  env ← ask;
  let selenium_path := path_join (cwd env) "selenium" in
  mkdir_exist_ok selenium_path;;
  let driver_path := path_join selenium_path "chromedriver" in
  install_chromedriver driver_paths driver_path;;
  is_file ← path_exists driver_path;
  if (is_file : bool) then
    user ← lift (getuser env);
    let options :=
      mkChromeOptions "eager"
        ((if String.eqb user "root" then ["--no-sandbox"] else [])
         ++ ["--headless";
             "--disable-blink-features=AutomationControlled";
             "--disable-dev-shm-usage";
             "--user-agent=" +:+ dquote +:+ user_agent +:+ dquote;
             "--user-data-dir=" +:+ selenium_path;
             "--window-position=0,0";
             "--window-size=1920,1080"]) in
    mret (mkSeleniumDriver (mkDriver data_dir timeout)
            selenium_path driver_path options)
  else
    raise (Exc Exception
      "Selenium Chrome driver not found at /usr/bin/chromedriver or /usr/local/bin/chromedriver").

(** [with webdriver.Chrome(self.driver_path, options=self.options) as
    driver: driver.get(str(url)); ...]: the session is started, the page is
    loaded, and the body runs on the loaded page. *)
Definition SeleniumDriver_get (self : SeleniumDriver) (url : Target)
  : M GetResult :=
  env ← ask;
  lift (chrome_start env (driver_path self) (arguments (options self)));;
  driver ← lift (chrome_get env (str url));
  try_except
    (let filename :=
       path_join (data_dir (selenium_base self)) (nickname url +:+ ".png") in
     saved ← lift (save_screenshot driver filename);
     match saved with
     | Some image => write_file filename image
     | None => mret ()
     end)
    (λ e, logging_warning
            ("unable to save screenshot of webpage: " +:+ exc_str e));;
  mret (Some (HttpGetResponse_init (Text (page_source driver)) (UrlObj url) ∅)).

#[global] Instance SeleniumDriver_class : DriverClass SeleniumDriver :=
  {| base := selenium_base; get := SeleniumDriver_get |}.

(** *** PuppeteerDriver *)

Record PuppeteerDriver := mkPuppeteerDriver {
  puppeteer_base : Driver;
  script_path : string;
}.

Definition PuppeteerDriver_init (data_dir : string) (timeout : Z)
  : M PuppeteerDriver :=
  env ← ask;
  let script_path := path_join (module_dir env) "scrape.js" in
  found ← path_exists script_path;
  if (found : bool) then
    mret (mkPuppeteerDriver (mkDriver data_dir timeout) script_path)
  else
    raise (Exc Exception ("does not exist: " +:+ script_path)).

Definition PuppeteerDriver_get (self : PuppeteerDriver) (url : Target)
  : M GetResult :=
  let html_file :=
    path_join (data_dir (puppeteer_base self)) (nickname url +:+ ".html") in
  let png_file :=
    path_join (data_dir (puppeteer_base self)) (nickname url +:+ ".png") in
  let cmd := ["node"; script_path self; str url; html_file; png_file] in
  r ← run_process cmd;
  if negb (returncode r =? 0) then
    logging_warning ("puppeteer scrape failed: " +:+ stdout r);;
    mret None
  else
    content ← read_file html_file;
    mret (Some (HttpGetResponse_init (Text content) (UrlObj url) ∅)).

#[global] Instance PuppeteerDriver_class : DriverClass PuppeteerDriver :=
  {| base := puppeteer_base; get := PuppeteerDriver_get |}.

(** *** RequestsDriver *)

Record RequestsDriver := mkRequestsDriver {
  requests_base : Driver;
}.

Definition RequestsDriver_init (data_dir : string) (timeout : Z)
  : M RequestsDriver :=
  mret (mkRequestsDriver (mkDriver data_dir timeout)).

Definition RequestsDriver_get (self : RequestsDriver) (url : Target)
  : M GetResult :=
  let headers : gmap string string :=
    <["user-agent" := user_agent]> (<["referer" := "https://google.com"]> ∅) in
  env ← ask;
  r ← lift (requests_get env (str url) headers (timeout (requests_base self)));
  (if negb (r_ok r) then
     logging_debug ("got response with status code " +:+ pretty (r_status_code r)
                    +:+ " for " +:+ str url)
   else mret ());;
  mret (Some (HttpGetResponse_init (Text (r_text r)) (UrlStr (r_url r))
                {["status_code" := r_status_code r]})).

#[global] Instance RequestsDriver_class : DriverClass RequestsDriver :=
  {| base := requests_base; get := RequestsDriver_get |}.

(** *** LeanAndMeanDriver *)

Record LeanAndMeanDriver := mkLeanAndMeanDriver {
  lean_and_mean_base : Driver;
}.

Definition LeanAndMeanDriver_init (data_dir : string) (timeout : Z)
  : M LeanAndMeanDriver :=
  mret (mkLeanAndMeanDriver (mkDriver data_dir timeout)).

(** [response.ParseFromString(data)] as a computation. *)
Definition Response_parse (data : bytes) : M Response.t :=
  match Response.ParseFromString data with
  | Some response => mret response
  | None => raise (Exc DecodeError "Error parsing message")
  end.

Definition get_impl (self : LeanAndMeanDriver) (url : Target) : M GetResult :=
  peer ← open_connection "127.0.0.1" 3080;
  let request := Request.new in
  request ← lift (Request.set_id 1337 request);
  request ← lift (Request.set_url (str url) request);
  request ← lift (Request.set_timeout (timeout (lean_and_mean_base self)) request);
  writer_write (Request.SerializeToString request);;
  writer_write_eof peer;;
  writer_drain peer;;
  data ← reader_read peer;
  response ← Response_parse data;
  logging_debug
    ("got response with id " +:+ pretty (Response.id response)
     +:+ ", status_code: " +:+ pretty (Response.status_code response)
     +:+ ", data: <" +:+ pretty (length (Response.data response))
     +:+ " bytes>");;
  writer_close;;
  writer_wait_closed;;
  mret (Some (HttpGetResponse_init (Bytes (Response.data response)) (UrlObj url)
                {["status_code" := Response.status_code response]})).

(** [asyncio.run(self.get_impl(url))] runs the coroutine to completion. *)
Definition LeanAndMeanDriver_get (self : LeanAndMeanDriver) (url : Target)
  : M GetResult :=
  get_impl self url.

#[global] Instance LeanAndMeanDriver_class : DriverClass LeanAndMeanDriver :=
  {| base := lean_and_mean_base; get := LeanAndMeanDriver_get |}.

(* ===================================================================== *)
(** ** [DriverRepo] and [init_drivers] *)
(* ===================================================================== *)

Record DriverRepo := mkDriverRepo {
  repo_data_dir : string;
  requests : RequestsDriver;
  selenium : SeleniumDriver;
  puppeteer : PuppeteerDriver;
  lean_and_mean : LeanAndMeanDriver;
}.

Definition DriverRepo_init (timeout : Z) : M DriverRepo :=
  env ← ask;
  let data_dir := path_join (cwd env) "data" in
  mkdir_exist_ok data_dir;;
  requests ← RequestsDriver_init data_dir timeout;
  selenium ← SeleniumDriver_init data_dir timeout;
  puppeteer ← PuppeteerDriver_init data_dir timeout;
  lean_and_mean ← LeanAndMeanDriver_init data_dir timeout;
  mret (mkDriverRepo data_dir requests selenium puppeteer lean_and_mean).

(** *** The numbers of the configuration *)

(** A Python [float]: a rational when finite (every double is one), an
    infinity, or NaN. *)
Inductive PyFloat :=
| Finite (q : QArith_base.Q)
| Infinity (negative : bool)
| NaN.

Inductive PyNumber :=
| PyInt (z : Z)
| PyFloating (x : PyFloat).

(** The values a configuration can hold where a number is expected. *)
Inductive PyValue :=
| PyNum (n : PyNumber)
| PyStr (s : string)
| PyNone.

Coercion PyInt : Z >-> PyNumber.
Coercion PyNum : PyNumber >-> PyValue.

Definition as_float (n : PyNumber) : PyFloat :=
  match n with
  | PyInt z => Finite (QArith_base.Qmake z 1)
  | PyFloating x => x
  end.

(** [a > b] on numbers; integers and floats compare by value, every
    comparison with NaN is false. *)
Definition py_gt (a b : PyNumber) : bool :=
  match as_float a, as_float b with
  | NaN, _ | _, NaN => false
  | Infinity na, Infinity nb => negb na && nb
  | Infinity na, Finite _ => negb na
  | Finite _, Infinity nb => nb
  | Finite qa, Finite qb =>
      QArith_base.Qnum qb * Z.pos (QArith_base.Qden qa)
      <? QArith_base.Qnum qa * Z.pos (QArith_base.Qden qb)
  end.

Definition type_name (v : PyValue) : string :=
  match v with
  | PyNum (PyInt _) => "int"
  | PyNum (PyFloating _) => "float"
  | PyStr _ => "str"
  | PyNone => "NoneType"
  end.

(** [max(a, b)]: [a], unless [b > a]; values that are not both numbers do
    not compare. *)
Definition py_max (a b : PyValue) : Outcome PyNumber :=
  match a, b with
  | PyNum x, PyNum y => Returned (if py_gt y x then y else x)
  | _, _ =>
      Raised (Exc TypeError
                ("'>' not supported between instances of '" +:+ type_name b
                 +:+ "' and '" +:+ type_name a +:+ "'"))
  end.

(** [int(x)] on a number: a float is truncated towards zero. *)
Definition py_int (x : PyNumber) : Outcome Z :=
  match x with
  | PyInt z => Returned z
  | PyFloating (Finite q) =>
      Returned (Z.quot (QArith_base.Qnum q) (Z.pos (QArith_base.Qden q)))
  | PyFloating (Infinity _) =>
      Raised (Exc OverflowError "cannot convert float infinity to integer")
  | PyFloating NaN =>
      Raised (Exc ValueError "cannot convert float NaN to integer")
  end.

(** [config], of which [init_drivers] reads [refresh_interval], a number of
    seconds. *)
Record Config := mkConfig {
  refresh_interval : PyValue;
}.

(** [int(max(config.refresh_interval, 15))] *)
Definition effective_timeout (config : Config) : Outcome Z :=
  match py_max (refresh_interval config) 15 with
  | Returned m => py_int m
  | Raised e => Raised e
  end.

Definition init_drivers (config : Config) : M DriverRepo :=
  timeout ← lift (effective_timeout config);
  DriverRepo_init timeout.

(* ===================================================================== *)
(** ** The wire exchange of one fetch, and example worlds *)
(* ===================================================================== *)

(** The request [get_impl] builds for [url]. *)
Definition request_for (self : LeanAndMeanDriver) (url : Target) : Request.t :=
  Request.mk 1337 (str url) (timeout (lean_and_mean_base self)).

(** The socket events of a complete exchange: open, one write, half-close,
    drain, read to end-of-stream, close, wait until closed. *)
Definition exchange (request : bytes) : list SocketEvent :=
  [EvOpen "127.0.0.1" 3080; EvWrite request; EvWriteEof; EvDrain; EvRead;
   EvClose; EvWaitClosed].

(** The socket events of an exchange on a failing connection, up to the
    call at which the failure shows. *)
Definition lost_exchange (step : StreamStep) (request : bytes)
  : list SocketEvent :=
  [EvOpen "127.0.0.1" 3080; EvWrite request; EvWriteEof]
  ++ match step with
     | AtWriteEof => []
     | AtDrain => [EvDrain]
     | AtRead => [EvDrain; EvRead]
     end.

(** No write comes after the half-close. *)
Definition no_write_after_eof (evs : list SocketEvent) : Prop :=
  ∀ i j data, evs !! i = Some EvWriteEof → evs !! j = Some (EvWrite data) →
    (j < i)%nat.

(** Every read comes after a write. *)
Definition no_read_before_write (evs : list SocketEvent) : Prop :=
  ∀ i, evs !! i = Some EvRead →
    ∃ j data, (j < i)%nat ∧ evs !! j = Some (EvWrite data).

(** The number of writes. *)
Definition is_write (ev : SocketEvent) : bool :=
  match ev with
  | EvWrite _ => true
  | _ => false
  end.

Definition count_writes (evs : list SocketEvent) : nat :=
  length (List.filter is_write evs).

(** A world in which no collaborator is reachable. *)
Definition quiet_env : Env :=
  {| fetch_service := λ _ _, None;
     lost_at := AtRead;
     requests_get := λ _ _ _, Raised (Exc RequestException "unreachable");
     chrome_start := λ _ _, Raised (Exc WebDriverException "chrome not reachable");
     chrome_get := λ _, Raised (Exc WebDriverException "chrome not reachable");
     subprocess_run := λ _, (Raised (Exc FileNotFoundError "node"), ∅);
     random_choice := λ _ _, O;
     set_order := λ variables, variables;
     getuser := Returned "root";
     cwd := "/app";
     module_dir := "/app/src" |}.

(** The same world with a fetch service behaving as [peer]. *)
Definition with_service (peer : bytes → Outcome bytes) (env : Env) : Env :=
  {| fetch_service := λ _ _, Some peer;
     lost_at := lost_at env;
     requests_get := requests_get env;
     chrome_start := chrome_start env;
     chrome_get := chrome_get env;
     subprocess_run := subprocess_run env;
     random_choice := random_choice env;
     set_order := set_order env;
     getuser := getuser env;
     cwd := cwd env;
     module_dir := module_dir env |}.

(** The same world with subprocesses completing as [run] says. *)
Definition with_subprocess
    (run : list string → Outcome CompletedProcess * gmap string string)
    (env : Env) : Env :=
  {| fetch_service := fetch_service env;
     lost_at := lost_at env;
     requests_get := requests_get env;
     chrome_start := chrome_start env;
     chrome_get := chrome_get env;
     subprocess_run := run;
     random_choice := random_choice env;
     set_order := set_order env;
     getuser := getuser env;
     cwd := cwd env;
     module_dir := module_dir env |}.

(** The same world with a node script completing as [r] and leaving the
    files [created]. *)
Definition with_node (r : Outcome CompletedProcess)
    (created : gmap string string) (env : Env) : Env :=
  with_subprocess (λ _, (r, created)) env.

(** The same world with a browser that loads [page]. *)
Definition with_chrome (page : Page) (env : Env) : Env :=
  {| fetch_service := fetch_service env;
     lost_at := lost_at env;
     requests_get := requests_get env;
     chrome_start := λ _ _, Returned ();
     chrome_get := λ _, Returned page;
     subprocess_run := subprocess_run env;
     random_choice := random_choice env;
     set_order := set_order env;
     getuser := getuser env;
     cwd := cwd env;
     module_dir := module_dir env |}.

(** The same world with an HTTP server answering [r]. *)
Definition with_http (r : RequestsResponse) (env : Env) : Env :=
  {| fetch_service := fetch_service env;
     lost_at := lost_at env;
     requests_get := λ _ _ _, Returned r;
     chrome_start := chrome_start env;
     chrome_get := chrome_get env;
     subprocess_run := subprocess_run env;
     random_choice := random_choice env;
     set_order := set_order env;
     getuser := getuser env;
     cwd := cwd env;
     module_dir := module_dir env |}.

(** The same world with a failing connection noticed at [step]. *)
Definition with_lost_at (step : StreamStep) (env : Env) : Env :=
  {| fetch_service := fetch_service env;
     lost_at := step;
     requests_get := requests_get env;
     chrome_start := chrome_start env;
     chrome_get := chrome_get env;
     subprocess_run := subprocess_run env;
     random_choice := random_choice env;
     set_order := set_order env;
     getuser := getuser env;
     cwd := cwd env;
     module_dir := module_dir env |}.

(** A file system holding a chromedriver binary without a variable to
    patch, and the scrape script. *)
Definition installed_state : State :=
  mkState (<["/usr/bin/chromedriver" := "ELF chromedriver"]>
             (<["/app/src/scrape.js" := "script"]> ∅)) [] [].

Definition example_target : Target :=
  mkTarget "http://example.test" "example".

Definition example_request : Request.t :=
  Request.mk 1337 "http://example.test" 15.

Definition example_driver : Driver := mkDriver "/app/data" 15.

Definition example_lean_and_mean : LeanAndMeanDriver :=
  mkLeanAndMeanDriver example_driver.

Definition example_puppeteer : PuppeteerDriver :=
  mkPuppeteerDriver example_driver "/app/src/scrape.js".

Definition example_selenium : SeleniumDriver :=
  mkSeleniumDriver example_driver "/app/selenium" "/app/selenium/chromedriver"
    (mkChromeOptions "eager" ["--headless"]).

Definition example_requests : RequestsDriver :=
  mkRequestsDriver example_driver.

(** A page whose screenshot cannot be taken. *)
Definition page_without_screenshot : Page :=
  mkPage "<html></html>"
    (λ _, Raised (Exc WebDriverException "screenshot failed")).

(** The closed set of driver variants a caller can hold, and [get] on any
    of them. *)
Inductive Backend :=
| Requests (d : RequestsDriver)
| Selenium (d : SeleniumDriver)
| Puppeteer (d : PuppeteerDriver)
| LeanAndMean (d : LeanAndMeanDriver).

Definition fetch (b : Backend) (url : Target) : M GetResult :=
  match b with
  | Requests d => get d url
  | Selenium d => get d url
  | Puppeteer d => get d url
  | LeanAndMean d => get d url
  end.

(** The variants that pass [status_code=...] to [HttpGetResponse]. *)
Definition populates_status (b : Backend) : bool :=
  match b with
  | Requests _ | LeanAndMean _ => true
  | Selenium _ | Puppeteer _ => false
  end.

(** The drivers of a repository, as variants. *)
Definition backends (repo : DriverRepo) : list Backend :=
  [Requests (requests repo); Selenium (selenium repo);
   Puppeteer (puppeteer repo); LeanAndMean (lean_and_mean repo)].

Definition backend_base (b : Backend) : Driver :=
  match b with
  | Requests d => base d
  | Selenium d => base d
  | Puppeteer d => base d
  | LeanAndMean d => base d
  end.

(** The files [PuppeteerDriver.get] hands to the node script. *)
Definition html_file_of (self : PuppeteerDriver) (url : Target) : string :=
  path_join (data_dir (puppeteer_base self)) (nickname url +:+ ".html").

Definition png_file_of (self : PuppeteerDriver) (url : Target) : string :=
  path_join (data_dir (puppeteer_base self)) (nickname url +:+ ".png").

Definition scrape_cmd (self : PuppeteerDriver) (url : Target) : list string :=
  ["node"; script_path self; str url; html_file_of self url;
   png_file_of self url].

(** The file [SeleniumDriver.get] saves the screenshot to. *)
Definition screenshot_file_of (self : SeleniumDriver) (url : Target) : string :=
  path_join (data_dir (selenium_base self)) (nickname url +:+ ".png").

(** Where [SeleniumDriver.__init__] installs its chromedriver,
    [Path('selenium').resolve() / 'chromedriver'], and where
    [PuppeteerDriver.__init__] looks for its script. *)
Definition selenium_driver_path (env : Env) : string :=
  path_join (path_join (cwd env) "selenium") "chromedriver".

Definition scrape_script_path (env : Env) : string :=
  path_join (module_dir env) "scrape.js".


(** The last character of a string. *)
Fixpoint last_char (s : string) : option Ascii.ascii :=
  match s with
  | EmptyString => None
  | String a EmptyString => Some a
  | String _ s' => last_char s'
  end.

(** The exception classes by name, for statements about what is raised. *)
Definition is_raised {A} (o : Outcome A) : Prop :=
  match o with
  | Raised _ => True
  | Returned _ => False
  end.

Definition raises {A} (c : ExcClass) (o : Outcome A) : Prop :=
  match o with
  | Raised e => exc_class e = c
  | Returned _ => False
  end.

(** A second target with the nickname of [example_target], and a world
    whose node script writes a dump for [example_target] only. *)
Definition colliding_target : Target :=
  mkTarget "http://other.test" "example".

Definition node_writes_first_only : Env :=
  with_subprocess
    (λ cmd,
       if decide (cmd = scrape_cmd example_puppeteer example_target)
       then (Returned (mkCompletedProcess 0 EmptyString),
             {[html_file_of example_puppeteer example_target
               := "<html>first</html>"]})
       else (Returned (mkCompletedProcess 0 EmptyString), ∅))
    quiet_env.

(** The options [SeleniumDriver.__init__] builds for the user [user]. *)
Definition chrome_options (user : string) (env : Env) : ChromeOptions :=
  mkChromeOptions "eager"
    ((if String.eqb user "root" then ["--no-sandbox"] else [])
     ++ ["--headless";
         "--disable-blink-features=AutomationControlled";
         "--disable-dev-shm-usage";
         "--user-agent=" +:+ dquote +:+ user_agent +:+ dquote;
         "--user-data-dir=" +:+ path_join (cwd env) "selenium";
         "--window-position=0,0";
         "--window-size=1920,1080"]).

(** The message of the exception raised when no chromedriver is found. *)
Definition chromedriver_not_found : PyException :=
  Exc Exception
    "Selenium Chrome driver not found at /usr/bin/chromedriver or /usr/local/bin/chromedriver".


(** A string as the outcome that returns it. *)
Definition returns_string (s : string) : Outcome string := Returned s.
Coercion returns_string : string >-> Outcome.

(* ===================================================================== *)
(** * Properties *)
(* ===================================================================== *)

(** ** The wire encoding: decoding inverts encoding *)

Section WireFacts.
Import Wire.
Local Open Scope N_scope.

Lemma to_N_int2byte n : n < 256 → Byte.to_N (int2byte n) = n.
Proof.
  intros Hn. unfold int2byte.
  destruct (Byte.of_N n) as [b|] eqn:E.
  - by apply Byte.to_of_N.
  - apply Byte.of_N_None_iff in E. lia.
Qed.

Lemma land_127_lt n : N.land n 127 < 128.
Proof.
  change 127 with (N.ones 7). rewrite N.land_ones.
  apply N.mod_lt. discriminate.
Qed.

Lemma land_127_small n : n < 128 → N.land n 127 = n.
Proof.
  intros Hn. change 127 with (N.ones 7). rewrite N.land_ones.
  by apply N.mod_small.
Qed.

Lemma land_128_small n : n < 128 → N.land n 128 = 0.
Proof.
  intros Hn. rewrite <- (land_127_small n Hn), <- N.land_assoc.
  change (N.land 127 128) with 0. apply N.land_0_r.
Qed.

Lemma continuation_byte n :
  let b := Byte.to_N (int2byte (N.lor 128 (N.land n 127))) in
  N.land b 127 = N.land n 127 ∧ N.land b 128 = 128.
Proof.
  intros b. pose proof (land_127_lt n) as Hlt.
  assert (Hz : N.land 128 (N.land n 127) = 0)
    by (rewrite N.land_comm; by apply land_128_small).
  assert (Hb : b = N.lor 128 (N.land n 127)).
  { apply to_N_int2byte. rewrite <- N.lxor_lor, <- N.add_nocarry_lxor by done. lia. }
  rewrite Hb. split.
  - rewrite N.land_lor_distr_l. change (N.land 128 127) with 0.
    rewrite N.lor_0_l. by apply land_127_small.
  - rewrite N.land_lor_distr_l. change (N.land 128 128) with 128.
    rewrite (land_128_small _ Hlt). apply N.lor_0_r.
Qed.

Lemma split_low7 n : N.lor (N.land n 127) (N.shiftl (N.shiftr n 7) 7) = n.
Proof.
  change 127 with (N.ones 7). rewrite <- N.ldiff_ones_r, N.lor_comm.
  apply N.lor_ldiff_and.
Qed.

Lemma shiftr_7_small n : N.shiftr n 7 = 0 → n < 128.
Proof.
  rewrite N.shiftr_div_pow2. intros H.
  apply N.div_small_iff in H; [done | discriminate].
Qed.

Lemma shiftr_7_lt n k : n < 2 ^ (7 + k) → N.shiftr n 7 < 2 ^ k.
Proof.
  intros H. rewrite N.shiftr_div_pow2.
  apply N.Div0.div_lt_upper_bound.
  by rewrite <- N.pow_add_r.
Qed.

(** Decoding what the encoder wrote. *)
Lemma DecodeVarint_loop_Encode fuel : ∀ n shift result rest,
  n < 2 ^ (7 * (N.of_nat fuel + 1)) →
  shift + 7 * N.of_nat fuel < 64 →
  DecodeVarint_loop shift result (EncodeVarint_loop fuel n ++ rest)
  = Some (N.land (N.lor result (N.shiftl n shift)) mask64, rest).
Proof.
  induction fuel as [|fuel IH]; intros n shift result rest Hn Hs.
  - assert (n < 128) by (simpl in Hn; lia).
    simpl. rewrite land_127_small by done.
    rewrite to_N_int2byte by lia.
    by rewrite land_128_small, land_127_small.
  - cbn [EncodeVarint_loop].
    destruct (N.eqb_spec (N.shiftr n 7) 0) as [Hz|Hnz].
    + apply shiftr_7_small in Hz.
      simpl. rewrite land_127_small by done.
      rewrite to_N_int2byte by lia.
      by rewrite land_128_small, land_127_small.
    + cbn [app DecodeVarint_loop].
      destruct (continuation_byte n) as [-> ->].
      change (128 =? 0) with false. cbv iota.
      destruct (N.leb_spec 64 (shift + 7)) as [Hle|Hlt]; [lia|].
      rewrite IH; [| apply shiftr_7_lt;
        replace (7 + 7 * (N.of_nat fuel + 1)) with (7 * (N.of_nat (S fuel) + 1)) by lia;
        exact Hn | lia].
      do 3 f_equal. rewrite <- N.lor_assoc. f_equal.
      rewrite (N.add_comm shift 7), <- N.shiftl_shiftl, <- N.shiftl_lor.
      by rewrite split_low7.
Qed.

Lemma DecodeVarint_Encode n rest :
  DecodeVarint (EncodeVarint n ++ rest) = Some (N.land n mask64, rest).
Proof.
  unfold DecodeVarint, EncodeVarint.
  rewrite DecodeVarint_loop_Encode.
  - rewrite N.shiftl_0_r, N.lor_0_l, <- N.land_assoc.
    by rewrite N.land_diag.
  - unfold mask64. rewrite N.land_ones.
    etrans; [apply N.mod_lt; discriminate|]. done.
  - done.
Qed.

Lemma pow2_land_0 m k : N.testbit m k = false → N.land m (2 ^ k) = 0.
Proof.
  intros Hb. apply N.bits_inj. intros i.
  rewrite N.land_spec, N.bits_0, N.pow2_bits_eqb.
  destruct (N.eqb_spec k i) as [<-|]; [by rewrite Hb | apply andb_false_r].
Qed.

Lemma testbit_top m k : m < 2 ^ (k + 1) →
  if N.testbit m k then 2 ^ k <= m else m < 2 ^ k.
Proof.
  intros Hm. destruct (N.testbit_spec m k) as (l & h & Hl & Heq).
  rewrite N.pow_add_r, N.pow_1_r in Hm.
  assert (Hp : 0 < 2 ^ k) by (apply N.neq_0_lt_0, N.pow_nonzero; discriminate).
  revert Hm Hl Heq Hp. generalize (2 ^ k). intros p Hm Hl Heq Hp.
  destruct (N.testbit m k); cbn [N.b2n] in Heq.
  - nia.
  - destruct h as [|h]; [lia | nia].
Qed.

(** [(m ^ signbit) - signbit] reads an unsigned pattern as two's
    complement. *)
Lemma lxor_signbit m k : m < 2 ^ (k + 1) →
  (Z.of_N (N.lxor m (2 ^ k)) - Z.of_N (2 ^ k) =
   if (m <? 2 ^ k)%N then Z.of_N m else Z.of_N m - Z.of_N (2 ^ (k + 1)))%Z.
Proof.
  intros Hm. pose proof (testbit_top m k Hm) as Htop.
  rewrite N.pow_add_r, N.pow_1_r in *.
  destruct (N.testbit m k) eqn:Hb.
  - destruct (N.ltb_spec m (2 ^ k)); [lia|].
    assert (Hb' : N.testbit (N.lxor m (2 ^ k)) k = false)
      by (by rewrite N.lxor_spec, Hb, N.pow2_bits_true).
    pose proof (N.add_nocarry_lxor _ _ (pow2_land_0 _ _ Hb')) as Hadd.
    rewrite N.lxor_assoc, N.lxor_nilpotent, N.lxor_0_r in Hadd. lia.
  - destruct (N.ltb_spec m (2 ^ k)); [|lia].
    rewrite <- (N.add_nocarry_lxor _ _ (pow2_land_0 _ _ Hb)). lia.
Qed.

Lemma mod64_mod32 z : (- 2 ^ 31 <= z < 2 ^ 31)%Z →
  ((z mod 2 ^ 64) mod 2 ^ 32 = if z <? 0 then z + 2 ^ 32 else z)%Z.
Proof.
  intros Hz. destruct (Z.ltb_spec z 0).
  - replace (z mod 2 ^ 64)%Z with (z + 2 ^ 64)%Z
      by (apply Z.mod_unique with (-1)%Z; lia).
    symmetry. apply Z.mod_unique with (2 ^ 32 - 1)%Z; lia.
  - rewrite (Z.mod_small z) by lia. apply Z.mod_small. lia.
Qed.

Lemma mod64_mod64 z : (- 2 ^ 63 <= z < 2 ^ 63)%Z →
  ((z mod 2 ^ 64) mod 2 ^ 64 = if z <? 0 then z + 2 ^ 64 else z)%Z.
Proof.
  intros Hz. rewrite Z.mod_mod by lia. destruct (Z.ltb_spec z 0).
  - symmetry. apply Z.mod_unique with (-1)%Z; lia.
  - apply Z.mod_small. lia.
Qed.

Lemma signed_unsigned64_32 z : in_int32 z → signed 32 (unsigned64 z) = z.
Proof.
  unfold in_int32, signed, unsigned64. intros Hz.
  rewrite N.land_ones. change (N.shiftl 1 (32 - 1)) with (2 ^ 31).
  set (m := Z.to_N (z mod 2 ^ 64) mod 2 ^ 32).
  assert (Hm : Z.of_N m = ((z mod 2 ^ 64) mod 2 ^ 32)%Z).
  { unfold m. by rewrite N2Z.inj_mod, Z2N.id by (apply Z.mod_pos_bound; lia). }
  rewrite mod64_mod32 in Hm by done.
  assert (Hlt : m < 2 ^ (31 + 1)) by (apply N.mod_lt; discriminate).
  clearbody m.
  rewrite (lxor_signbit m 31 Hlt).
  change (2 ^ 31)%N with 2147483648 in *.
  change (2 ^ (31 + 1))%N with 4294967296 in *.
  change (2 ^ 31)%Z with 2147483648%Z in *.
  change (2 ^ 32)%Z with 4294967296%Z in *.
  change (2 ^ 64)%Z with 18446744073709551616%Z in *.
  destruct (N.ltb_spec m 2147483648), (Z.ltb_spec z 0); lia.
Qed.

Lemma signed_unsigned64_64 z : in_int64 z → signed 64 (unsigned64 z) = z.
Proof.
  unfold in_int64, signed, unsigned64. intros Hz.
  rewrite N.land_ones. change (N.shiftl 1 (64 - 1)) with (2 ^ 63).
  set (m := Z.to_N (z mod 2 ^ 64) mod 2 ^ 64).
  assert (Hm : Z.of_N m = ((z mod 2 ^ 64) mod 2 ^ 64)%Z).
  { unfold m. by rewrite N2Z.inj_mod, Z2N.id by (apply Z.mod_pos_bound; lia). }
  rewrite mod64_mod64 in Hm by done.
  assert (Hlt : m < 2 ^ (63 + 1)) by (apply N.mod_lt; discriminate).
  clearbody m.
  rewrite (lxor_signbit m 63 Hlt).
  change (2 ^ 63)%N with 9223372036854775808 in *.
  change (2 ^ (63 + 1))%N with 18446744073709551616 in *.
  change (2 ^ 63)%Z with 9223372036854775808%Z in *.
  change (2 ^ 64)%Z with 18446744073709551616%Z in *.
  destruct (N.ltb_spec m 9223372036854775808), (Z.ltb_spec z 0); lia.
Qed.

Lemma unsigned64_lt z : unsigned64 z < 2 ^ 64.
Proof.
  unfold unsigned64.
  assert (0 <= z mod 2 ^ 64 < 2 ^ 64)%Z by (apply Z.mod_pos_bound; lia).
  change (2 ^ 64) with (Z.to_N (2 ^ 64)). lia.
Qed.

Lemma land_mask64 n : n < 2 ^ 64 → N.land n mask64 = n.
Proof.
  intros Hn. unfold mask64. rewrite N.land_ones. by apply N.mod_small.
Qed.

Lemma tag_parts fn wt : fn < 2 ^ 29 → wt < 8 →
  let tag := N.lor (N.shiftl fn 3) wt in
  tag < 2 ^ 32 ∧ N.shiftr tag 3 = fn ∧ N.land tag 7 = wt.
Proof.
  intros Hfn Hwt tag.
  assert (Hlow : N.land (N.shiftl fn 3) 7 = 0).
  { change 7 with (N.ones 3). rewrite N.land_ones, N.shiftl_mul_pow2.
    apply N.Div0.mod_mul. }
  assert (Hwt7 : N.land wt 7 = wt).
  { change 7 with (N.ones 3). rewrite N.land_ones. by apply N.mod_small. }
  assert (Hdisj : N.land (N.shiftl fn 3) wt = 0).
  { rewrite <- Hwt7, (N.land_comm wt), N.land_assoc, Hlow. apply N.land_0_l. }
  split; [|split].
  - unfold tag. rewrite <- N.lxor_lor, <- N.add_nocarry_lxor by done.
    rewrite N.shiftl_mul_pow2.
    change (2 ^ 3) with 8. change (2 ^ 32) with 4294967296.
    change (2 ^ 29) with 536870912 in Hfn. lia.
  - unfold tag. rewrite N.shiftr_lor, N.shiftr_shiftl_l by done.
    change (3 - 3) with 0. rewrite N.shiftl_0_r, N.shiftr_div_pow2.
    rewrite (N.div_small wt) by done. apply N.lor_0_r.
  - unfold tag. rewrite N.land_lor_distr_l, Hlow, Hwt7. apply N.lor_0_l.
Qed.

Lemma DecodeTag_Tag fn wt rest : 0 < fn < 2 ^ 29 → wt < 8 →
  DecodeTag (TagBytes fn wt ++ rest) = Some (fn, wt, rest).
Proof.
  intros [Hpos Hfn] Hwt. unfold DecodeTag, TagBytes.
  rewrite DecodeVarint_Encode.
  destruct (tag_parts fn wt Hfn Hwt) as (Hlt & Hfield & Htype).
  rewrite land_mask64
    by (etrans; [exact Hlt|]; by apply N.pow_lt_mono_r).
  destruct (N.leb_spec (2 ^ 32) (N.lor (N.shiftl fn 3) wt)); [lia|].
  rewrite Hfield, Htype.
  destruct (N.eqb_spec fn 0); [lia|done].
Qed.

Lemma take_exact_app (b rest : bytes) :
  take_exact (length b) (b ++ rest) = Some (b, rest).
Proof.
  unfold take_exact. rewrite length_app.
  destruct (Nat.leb_spec (length b) (length b + length rest)); [|lia].
  by rewrite take_app_length, drop_app_length.
Qed.

Lemma decode_encode_field f rest : valid_field f →
  decode_field (encode_field f ++ rest) = Some (f, rest).
Proof.
  destruct f as [fn v]. intros [Hfn Hv]. simpl in *.
  unfold decode_field.
  destruct v as [n|b|b| |b]; simpl in Hv; [| | |done|];
    cbn [encode_field]; rewrite <- ?app_assoc;
    rewrite DecodeTag_Tag by done.
  - rewrite DecodeVarint_Encode. by rewrite land_mask64.
  - rewrite <- Hv. by rewrite take_exact_app.
  - rewrite DecodeVarint_Encode. rewrite land_mask64 by done.
    by rewrite Nat2N.id, take_exact_app.
  - rewrite <- Hv. by rewrite take_exact_app.
Qed.

Lemma EncodeVarint_nonempty n : EncodeVarint n ≠ [].
Proof.
  unfold EncodeVarint. cbn [EncodeVarint_loop].
  by destruct (_ =? _).
Qed.

Lemma encode_field_nonempty f rest : ∃ b bs, encode_field f ++ rest = b :: bs.
Proof.
  assert (H : ∀ n l, ∃ b bs, EncodeVarint n ++ l = b :: bs).
  { intros n l. pose proof (EncodeVarint_nonempty n).
    destruct (EncodeVarint n) as [|b bs]; [done|]. by exists b, (bs ++ l). }
  destruct f as [fn [n|b|b| |b]]; cbn [encode_field]; unfold TagBytes;
    rewrite <- ?app_assoc; apply H.
Qed.

Lemma decode_encode_fields_loop fs : ∀ fuel,
  Forall valid_field fs → (length fs <= fuel)%nat →
  decode_fields_loop fuel (encode_fields fs) = Some fs.
Proof.
  unfold encode_fields.
  induction fs as [|f fs IH]; intros fuel Hv Hfuel.
  - by destruct fuel.
  - apply Forall_cons in Hv as [Hf Hfs].
    cbn [map concat].
    destruct (encode_field_nonempty f (concat (map encode_field fs)))
      as (b & bs & Heq).
    destruct fuel as [|fuel]; [simpl in Hfuel; lia|].
    cbn [decode_fields_loop]. rewrite Heq, <- Heq.
    rewrite decode_encode_field by done.
    rewrite IH; [done | done | simpl in Hfuel; lia].
Qed.

Lemma length_encode_fields fs : (length fs <= length (encode_fields fs))%nat.
Proof.
  unfold encode_fields. induction fs as [|f fs IH]; [done|].
  cbn [map concat]. destruct (encode_field_nonempty f []) as (b & bs & Heq).
  rewrite app_nil_r in Heq. rewrite length_app, Heq. simpl. lia.
Qed.

Lemma decode_encode_fields fs : Forall valid_field fs →
  decode_fields (encode_fields fs) = Some fs.
Proof.
  intros Hv. apply decode_encode_fields_loop; [done|].
  apply length_encode_fields.
Qed.

Lemma valid_varint_field fn z : 0 < fn < 2 ^ 29 →
  valid_field (fn, WVarint (unsigned64 z)).
Proof. intros Hfn. split; [done|]. apply unsigned64_lt. Qed.

Lemma DecodeVarint_loop_shorter buffer : ∀ shift result v rest,
  DecodeVarint_loop shift result buffer = Some (v, rest) →
  (length rest < length buffer)%nat.
Proof.
  induction buffer as [|b buffer IH]; intros shift result v rest; [done|].
  cbn [DecodeVarint_loop length].
  destruct (N.land (Byte.to_N b) 128 =? 0)%N.
  - intros [= _ <-]. lia.
  - destruct (64 <=? shift + 7)%N; [done|].
    intros H%IH. lia.
Qed.

Lemma DecodeVarint_shorter buffer v rest :
  DecodeVarint buffer = Some (v, rest) → (length rest < length buffer)%nat.
Proof. apply DecodeVarint_loop_shorter. Qed.

Lemma DecodeTag_shorter buffer fn wt rest :
  DecodeTag buffer = Some (fn, wt, rest) → (length rest < length buffer)%nat.
Proof.
  unfold DecodeTag.
  destruct (DecodeVarint buffer) as [[tag rest1]|] eqn:Htag; [|done].
  apply DecodeVarint_shorter in Htag.
  destruct (2 ^ 32 <=? tag); [done|].
  destruct (N.shiftr tag 3 =? 0); [done|]. by intros [= _ _ <-].
Qed.

Lemma take_exact_shorter n buffer b rest :
  take_exact n buffer = Some (b, rest) → (length rest <= length buffer)%nat.
Proof.
  unfold take_exact. destruct (n <=? length buffer)%nat; [|done].
  intros [= _ <-]. rewrite length_drop. lia.
Qed.

(** Case analysis on the payload readers met in a goal or hypothesis. *)
Ltac payload_cases :=
  repeat match goal with
  | |- context [DecodeVarint ?r] =>
      let E := fresh "Hv" in
      destruct (DecodeVarint r) as [[? ?]|] eqn:E;
      [apply DecodeVarint_shorter in E|]
  | |- context [take_exact ?n ?r] =>
      let E := fresh "Hb" in
      destruct (take_exact n r) as [[? ?]|] eqn:E;
      [apply take_exact_shorter in E|]
  end.

Lemma skip_group_shorter fuel : ∀ open buffer rest,
  skip_group fuel open buffer = Some rest →
  (length rest < length buffer)%nat.
Proof.
  induction fuel as [|fuel IH]; intros open buffer rest; [done|].
  cbn [skip_group].
  destruct (DecodeTag buffer) as [[[fn wt] rest1]|] eqn:Htag; [|done].
  apply DecodeTag_shorter in Htag.
  destruct wt as [|[[[]|[]|]|[[]|[]|]|]]; try done; payload_cases; try done;
    try (intros H%IH; lia).
  destruct open as [|innermost outer]; [done|].
  destruct (fn =? innermost); [|done].
  destruct outer; [intros [= <-]; lia | intros H%IH; lia].
Qed.

Lemma decode_field_shorter buffer f rest :
  decode_field buffer = Some (f, rest) → (length rest < length buffer)%nat.
Proof.
  unfold decode_field.
  destruct (DecodeTag buffer) as [[[fn wt] rest1]|] eqn:Htag; [|done].
  apply DecodeTag_shorter in Htag.
  destruct wt as [|[[[]|[]|]|[[]|[]|]|]]; try done; payload_cases; try done;
    try (intros [= _ <-]; lia).
  destruct (skip_group _ _ rest1) as [rest2|] eqn:Hg; [|done].
  apply skip_group_shorter in Hg. intros [= _ <-]. lia.
Qed.

(** Skipping a group never runs out of iterations: any bound of at least
    the length of the buffer gives the same result. *)
Lemma skip_group_enough fuel : ∀ fuel' open buffer,
  (length buffer <= fuel)%nat → (length buffer <= fuel')%nat →
  skip_group fuel open buffer = skip_group fuel' open buffer.
Proof.
  induction fuel as [|fuel IH]; intros fuel' open buffer Hf Hf'.
  - destruct buffer; [|simpl in Hf; lia]. by destruct fuel'.
  - destruct fuel' as [|fuel'].
    { destruct buffer; [|simpl in Hf'; lia]. done. }
    cbn [skip_group].
    destruct (DecodeTag buffer) as [[[fn wt] rest1]|] eqn:Htag; [|done].
    apply DecodeTag_shorter in Htag.
    destruct wt as [|[[[]|[]|]|[[]|[]|]|]]; try done; payload_cases;
      try done; try (apply IH; lia).
    destruct open as [|innermost outer]; [done|].
    destruct (fn =? innermost); [|done].
    destruct outer; [done | apply IH; lia].
Qed.

(** The parse loop never runs out of iterations: any bound of at least the
    length of the buffer gives the same result. *)
Lemma decode_fields_loop_enough fuel : ∀ fuel' buffer,
  (length buffer <= fuel)%nat → (length buffer <= fuel')%nat →
  decode_fields_loop fuel buffer = decode_fields_loop fuel' buffer.
Proof.
  induction fuel as [|fuel IH]; intros fuel' buffer Hf Hf'.
  - destruct buffer; [by destruct fuel'|simpl in Hf; lia].
  - destruct buffer as [|b buffer]; [by destruct fuel'|].
    destruct fuel' as [|fuel']; [simpl in Hf'; lia|].
    cbn [decode_fields_loop].
    destruct (decode_field (b :: buffer)) as [[f rest]|] eqn:Hfield; [|done].
    apply decode_field_shorter in Hfield. simpl in *.
    by rewrite (IH fuel' rest) by lia.
Qed.

(** A reply with an unknown group before a known field: the group is
    skipped and the field is read. *)
Example ParseFromString_skips_group :
  Response.ParseFromString [x23; x24; x10; xc8; x01]
  = Some (Response.mk 0 200 []).
Proof. vm_compute. reflexivity. Qed.

End WireFacts.

Section MessageFacts.
Import Wire.

Lemma Request_to_fields_valid r : short (str_encode (Request.url r)) →
  Forall valid_field (Request.to_fields r).
Proof.
  intros Hs. unfold Request.to_fields.
  repeat apply Forall_app_2;
    repeat case_match; repeat constructor; try apply unsigned64_lt; done.
Qed.

Lemma Request_merge_to_fields r :
  in_int64 (Request.id r) → in_int32 (Request.timeout r) →
  fold_left Request.merge (Request.to_fields r) Request.new = r.
Proof.
  destruct r as [id url timeout]. cbn [Request.id Request.timeout].
  intros Hid Ht. unfold Request.to_fields, Request.new.
  cbn [Request.id Request.url Request.timeout].
  destruct (Z.eqb_spec id 0) as [->|_];
    destruct (String.eqb_spec url EmptyString) as [->|_];
    destruct (Z.eqb_spec timeout 0) as [->|_];
    cbn [app fold_left Request.merge Request.id Request.url Request.timeout];
    unfold bytes_decode, str_encode;
    rewrite ?string_of_list_byte_of_string, ?signed_unsigned64_64,
      ?signed_unsigned64_32 by done;
    done.
Qed.

Lemma Request_roundtrip r :
  in_int64 (Request.id r) → in_int32 (Request.timeout r) →
  short (str_encode (Request.url r)) →
  Request.ParseFromString (Request.SerializeToString r) = Some r.
Proof.
  intros Hid Ht Hs. unfold Request.ParseFromString, Request.SerializeToString.
  rewrite decode_encode_fields by by apply Request_to_fields_valid.
  by rewrite Request_merge_to_fields.
Qed.

Lemma Response_to_fields_valid r : short (Response.data r) →
  Forall valid_field (Response.to_fields r).
Proof.
  intros Hs. unfold Response.to_fields.
  repeat apply Forall_app_2;
    repeat case_match; repeat constructor; try apply unsigned64_lt;
    try done; by subst.
Qed.

Lemma Response_merge_to_fields r : Response.well_formed r →
  fold_left Response.merge (Response.to_fields r) Response.new = r.
Proof.
  destruct r as [id status data]. intros [Hid Hst].
  cbn [Response.id Response.status_code] in *.
  unfold Response.to_fields, Response.new.
  cbn [Response.id Response.status_code Response.data].
  destruct (Z.eqb_spec id 0) as [->|_];
    destruct (Z.eqb_spec status 0) as [->|_];
    destruct data as [|b data];
    cbn [app fold_left Response.merge Response.id Response.status_code
         Response.data];
    rewrite ?signed_unsigned64_64, ?signed_unsigned64_32 by done;
    done.
Qed.

Lemma Response_roundtrip r :
  Response.well_formed r → short (Response.data r) →
  Response.ParseFromString (Response.SerializeToString r) = Some r.
Proof.
  intros Hwf Hs.
  unfold Response.ParseFromString, Response.SerializeToString.
  rewrite decode_encode_fields by by apply Response_to_fields_valid.
  by rewrite Response_merge_to_fields.
Qed.
End MessageFacts.

(** ** Socket traces *)

Lemma written_from_open acc evs host port rest :
  written_from acc (evs ++ EvOpen host port :: rest) = written_from [] rest.
Proof.
  revert acc. induction evs as [|ev evs IH]; intros acc; [done|].
  destruct ev; simpl; apply IH.
Qed.

Lemma written_after_open evs host port data :
  written (evs ++ [EvOpen host port; EvWrite data; EvWriteEof; EvDrain]) = data.
Proof. unfold written. by rewrite written_from_open. Qed.

Lemma written_after_open_prefix evs host port data rest :
  written (evs ++ EvOpen host port :: EvWrite data :: EvWriteEof :: rest)
  = written_from data rest.
Proof. unfold written. by rewrite written_from_open. Qed.

Lemma lost_exchange_prefix step request :
  lost_exchange step request `prefix_of` exchange request.
Proof.
  unfold lost_exchange, exchange. destruct step; cbn [app].
  - by exists [EvDrain; EvRead; EvClose; EvWaitClosed].
  - by exists [EvRead; EvClose; EvWaitClosed].
  - by exists [EvClose; EvWaitClosed].
Qed.

Lemma no_write_after_eof_prefix evs evs' :
  evs `prefix_of` evs' → no_write_after_eof evs' → no_write_after_eof evs.
Proof.
  intros Hp H i j data Hi Hj.
  eapply H; eapply prefix_lookup_Some; eauto.
Qed.

Lemma no_read_before_write_prefix evs evs' :
  evs `prefix_of` evs' → no_read_before_write evs' → no_read_before_write evs.
Proof.
  intros [k ->] H i Hi.
  assert (Hi' : (evs ++ k) !! i = Some EvRead) by (by apply lookup_app_l_Some).
  destruct (H i Hi') as (j & data & Hlt & Hj).
  exists j, data. split; [done|].
  apply lookup_lt_Some in Hi.
  rewrite lookup_app_l in Hj by lia. done.
Qed.

Lemma exchange_no_write_after_eof request :
  no_write_after_eof (exchange request).
Proof.
  intros i j data Hi Hj. unfold exchange in *.
  assert (i = 2%nat) as -> by (repeat (destruct i as [|i]; try done)).
  assert (j = 1%nat) as -> by (repeat (destruct j as [|j]; try done)).
  lia.
Qed.

Lemma exchange_no_read_before_write request :
  no_read_before_write (exchange request).
Proof.
  intros i Hi. unfold exchange in *.
  assert (i = 4%nat) as -> by (repeat (destruct i as [|i]; try done)).
  exists 1%nat, request. split; [lia | done].
Qed.

Lemma count_writes_prefix evs evs' :
  evs `prefix_of` evs' → (count_writes evs <= count_writes evs')%nat.
Proof.
  intros [k ->]. unfold count_writes.
  rewrite List.filter_app, length_app. lia.
Qed.

(** ** [HttpGetResponse.__init__] *)

Lemma HttpGetResponse_init_status text url v :
  HttpGetResponse_init text url {["status_code" := v]}
  = mkHttpGetResponse text url (Some v).
Proof. unfold HttpGetResponse_init. by rewrite lookup_singleton_eq. Qed.

Lemma HttpGetResponse_init_default text url :
  HttpGetResponse_init text url ∅ = mkHttpGetResponse text url None.
Proof. unfold HttpGetResponse_init. by rewrite lookup_empty. Qed.

Lemma in_int32b_true z : Wire.in_int32b z = true ↔ Wire.in_int32 z.
Proof. unfold Wire.in_int32b, Wire.in_int32. lia. Qed.

(** ** The effects of [get_impl], path by path *)

Section GetImpl.

Context (self : LeanAndMeanDriver) (url : Target) (env : Env) (s : State).

(** Nobody listens: the call raises after the attempt to connect. *)
Lemma get_impl_refused :
  fetch_service env "127.0.0.1" 3080 = None →
  get_impl self url env s
  = (Raised (Exc ConnectionRefusedError "Connect call failed"),
     mkState (files s) (socket s ++ [EvOpen "127.0.0.1" 3080]) (log s)).
Proof.
  intros Hsvc. unfold get_impl, mbind, M_bind, open_connection.
  by rewrite Hsvc.
Qed.

Section Accepted.

Context (peer : bytes → Outcome bytes).
Hypothesis Hsvc : fetch_service env "127.0.0.1" 3080 = Some peer.

(** A timeout outside [int32] is refused by the message before anything is
    written. *)
Lemma get_impl_out_of_range :
  Wire.in_int32b (timeout (lean_and_mean_base self)) = false →
  get_impl self url env s
  = (Raised (Exc ValueError
       ("Value out of range: " +:+ pretty (timeout (lean_and_mean_base self)))),
     mkState (files s) (socket s ++ [EvOpen "127.0.0.1" 3080]) (log s)).
Proof.
  intros Hr. unfold get_impl, mbind, M_bind, open_connection.
  rewrite Hsvc. unfold lift, Request.set_timeout, check_range.
  by rewrite Hr.
Qed.

(** The request is sent; what follows depends on the fate of the
    connection and on the deserialization of what was read. *)
Lemma get_impl_accepted :
  Wire.in_int32b (timeout (lean_and_mean_base self)) = true →
  get_impl self url env s
  = let request := Request.SerializeToString (request_for self url) in
    let s_read :=
      mkState (files s)
        (socket s ++ [EvOpen "127.0.0.1" 3080; EvWrite request; EvWriteEof;
                      EvDrain; EvRead]) (log s) in
    match peer request with
    | Raised e =>
        (Raised e,
         mkState (files s) (socket s ++ lost_exchange (lost_at env) request)
           (log s))
    | Returned data =>
        match Response.ParseFromString data with
        | None => (Raised (Exc DecodeError "Error parsing message"), s_read)
        | Some response =>
            (Returned (Some (mkHttpGetResponse (Bytes (Response.data response))
                               (UrlObj url)
                               (Some (Response.status_code response)))),
             mkState (files s) (socket s ++ exchange request)
               (log s ++
                [Log DEBUG
                   ("got response with id " +:+ pretty (Response.id response)
                    +:+ ", status_code: "
                    +:+ pretty (Response.status_code response)
                    +:+ ", data: <"
                    +:+ pretty (length (Response.data response))
                    +:+ " bytes>")]))
        end
    end.
Proof.
  intros Hr. unfold get_impl, mbind, M_bind, open_connection.
  rewrite Hsvc. unfold lift.
  change (Request.set_id 1337 Request.new)
    with (Returned (Request.mk 1337 EmptyString 0)).
  unfold Request.set_timeout, check_range.
  cbn [Request.set_url Request.id Request.url Request.timeout].
  rewrite Hr.
  unfold writer_write, writer_write_eof, writer_drain, writer_close,
    writer_wait_closed, notice, mbind, M_bind, emit, reader_read,
    logging_debug, logging, Response_parse, mret, M_ret, raise.
  fold (request_for self url).
  destruct (peer (Request.SerializeToString (request_for self url)))
    as [data|e] eqn:Hpeer;
    destruct (lost_at env);
    repeat (cbn [files socket log StreamStep_eqb app written_from lost_exchange];
            rewrite <- ?List.app_assoc;
            rewrite ?written_after_open_prefix, ?Hpeer);
    try done;
    (destruct (Response.ParseFromString data) as [response|]; [|done]);
    cbn [files socket log]; rewrite <- !List.app_assoc; cbn [app];
    by rewrite HttpGetResponse_init_status.
Qed.

End Accepted.

(** The events a call appended to the socket trace. *)
Lemma get_impl_events :
  ∃ evs, socket (get_impl self url env s).2 = socket s ++ evs ∧
    let request := Request.SerializeToString (request_for self url) in
    match (get_impl self url env s).1 with
    | Returned _ => evs = exchange request
    | Raised _ =>
        evs = [EvOpen "127.0.0.1" 3080] ∨
        ∃ step, evs = lost_exchange step request
    end.
Proof.
  destruct (fetch_service env "127.0.0.1" 3080) as [peer|] eqn:Hsvc.
  - destruct (Wire.in_int32b (timeout (lean_and_mean_base self))) eqn:Hr.
    + rewrite (get_impl_accepted _ Hsvc Hr). cbv zeta.
      destruct (peer _) as [data|e].
      * destruct (Response.ParseFromString data);
          eexists; cbn [fst snd socket]; (split; [done|]); [done|].
        right. by exists AtRead.
      * eexists; cbn [fst snd socket]; split; eauto.
    + rewrite (get_impl_out_of_range _ Hsvc Hr).
      eexists; cbn [fst snd socket]; split; eauto.
  - rewrite (get_impl_refused Hsvc).
    eexists; cbn [fst snd socket]; split; eauto.
Qed.

End GetImpl.

(** Against a service that answers with the serialization of a well-formed
    response, the call returns that response's data and status code. *)
Lemma get_impl_serialized_response self target env s response :
  Wire.in_int32b (timeout (lean_and_mean_base self)) = true →
  Response.well_formed response → short (Response.data response) →
  (get_impl self target
     (with_service (λ _, Returned (Response.SerializeToString response)) env)
     s).1
  = Returned (Some (mkHttpGetResponse (Bytes (Response.data response))
                      (UrlObj target)
                      (Some (Response.status_code response)))).
Proof.
  intros Hr Hwf Hshort.
  rewrite (get_impl_accepted _ _ _ _
             (λ _, Returned (Response.SerializeToString response))); [|done..].
  cbv zeta. by rewrite Response_roundtrip.
Qed.

(** ** The drivers, case by case *)

Section Drivers.

Lemma SeleniumDriver_get_loaded self target env s page :
  chrome_start env (driver_path self) (arguments (options self)) = Returned () →
  chrome_get env (str target) = Returned page →
  SeleniumDriver_get self target env s
  = (Returned (Some (mkHttpGetResponse (Text (page_source page))
                       (UrlObj target) None)),
     match save_screenshot page (screenshot_file_of self target) with
     | Returned (Some image) =>
         mkState (<[screenshot_file_of self target := image]> (files s))
           (socket s) (log s)
     | Returned None => s
     | Raised e =>
         mkState (files s) (socket s)
           (log s ++ [Log WARNING ("unable to save screenshot of webpage: "
                                   +:+ exc_str e)])
     end).
Proof.
  intros Hstart Hget.
  unfold SeleniumDriver_get, mbind, M_bind, ask, lift, try_except.
  rewrite Hstart, Hget. fold (screenshot_file_of self target).
  rewrite HttpGetResponse_init_default.
  by destruct (save_screenshot page _) as [[image|]|e].
Qed.

Lemma PuppeteerDriver_get_run self target env s :
  PuppeteerDriver_get self target env s
  = let '(r, created) := subprocess_run env (scrape_cmd self target) in
    let s_run := mkState (created ∪ files s) (socket s) (log s) in
    match r with
    | Raised e => (Raised e, s_run)
    | Returned r =>
        if negb (returncode r =? 0) then
          (Returned None,
           mkState (created ∪ files s) (socket s)
             (log s ++ [Log WARNING ("puppeteer scrape failed: " +:+ stdout r)]))
        else
          match (created ∪ files s) !! html_file_of self target with
          | Some content =>
              (Returned (Some (mkHttpGetResponse (Text content) (UrlObj target)
                                 None)), s_run)
          | None =>
              (Raised (Exc FileNotFoundError
                         ("No such file or directory: "
                          +:+ html_file_of self target)), s_run)
          end
    end.
Proof.
  unfold PuppeteerDriver_get, mbind, M_bind, run_process.
  fold (html_file_of self target) (png_file_of self target).
  fold (scrape_cmd self target).
  destruct (subprocess_run env (scrape_cmd self target)) as [[r|e] created];
    [|done].
  destruct (returncode r =? 0); cbn [negb]; [|done].
  unfold read_file. cbn [files].
  destruct (_ !! _); [|done].
  unfold mret, M_ret. by rewrite HttpGetResponse_init_default.
Qed.

Lemma RequestsDriver_get_answered self target env s :
  RequestsDriver_get self target env s
  = match requests_get env (str target)
            (<["user-agent" := user_agent]>
               (<["referer" := "https://google.com"]> ∅))
            (timeout (requests_base self)) with
    | Raised e => (Raised e, s)
    | Returned r =>
        (Returned (Some (mkHttpGetResponse (Text (r_text r)) (UrlStr (r_url r))
                           (Some (r_status_code r)))),
         if r_ok r then s
         else mkState (files s) (socket s)
                (log s ++ [Log DEBUG ("got response with status code "
                                      +:+ pretty (r_status_code r)
                                      +:+ " for " +:+ str target)]))
    end.
Proof.
  unfold RequestsDriver_get, mbind, M_bind, ask, lift.
  destruct (requests_get env _ _ _) as [r|e]; [|done].
  rewrite HttpGetResponse_init_status.
  by destruct (r_ok r).
Qed.

Example RequestsDriver_get_not_found :
  RequestsDriver_get example_requests example_target
    (with_http (mkRequestsResponse "gone" "http://example.test/" 404) quiet_env)
    initial_state
  = (Returned (Some (mkHttpGetResponse (Text "gone")
                       (UrlStr "http://example.test/") (Some 404))),
     mkState ∅ [] [Log DEBUG
       "got response with status code 404 for http://example.test"]).
Proof. rewrite RequestsDriver_get_answered. reflexivity. Qed.

Example SeleniumDriver_get_without_screenshot :
  SeleniumDriver_get example_selenium example_target
    (with_chrome page_without_screenshot quiet_env) initial_state
  = (Returned (Some (mkHttpGetResponse (Text "<html></html>")
                       (UrlObj example_target) None)),
     mkState ∅ [] [Log WARNING
       "unable to save screenshot of webpage: screenshot failed"]).
Proof.
  by rewrite (SeleniumDriver_get_loaded _ _ _ _ page_without_screenshot).
Qed.

(** The three drivers other than [PuppeteerDriver] return a response object
    whenever they return. *)
Lemma fetch_returns_response b target env s s' :
  (∀ d, b ≠ Puppeteer d) →
  fetch b target env s ≠ (Returned None, s').
Proof.
  intros Hb. destruct b as [d|d|d|d]; cbn [fetch get RequestsDriver_class
    SeleniumDriver_class LeanAndMeanDriver_class].
  - rewrite RequestsDriver_get_answered.
    by destruct (requests_get env _ _ _).
  - unfold SeleniumDriver_get, mbind, M_bind, ask, lift, try_except.
    destruct (chrome_start env _ _); [|done].
    destruct (chrome_get env _); [|done].
    by destruct (save_screenshot _ _) as [[?|]|?].
  - by destruct (Hb d).
  - unfold LeanAndMeanDriver_get.
    destruct (fetch_service env "127.0.0.1" 3080) as [peer|] eqn:Hsvc.
    + destruct (Wire.in_int32b (timeout (lean_and_mean_base d))) eqn:Hr.
      * rewrite (get_impl_accepted _ _ _ _ _ Hsvc Hr). cbv zeta.
        destruct (peer _) as [reply|]; [|done].
        by destruct (Response.ParseFromString reply).
      * by rewrite (get_impl_out_of_range _ _ _ _ _ Hsvc Hr).
    + by rewrite (get_impl_refused _ _ _ _ Hsvc).
Qed.

Lemma PuppeteerDriver_get_failed self target env s r created :
  subprocess_run env (scrape_cmd self target) = (Returned r, created) →
  returncode r ≠ 0 →
  PuppeteerDriver_get self target env s
  = (Returned None,
     mkState (created ∪ files s) (socket s)
       (log s ++ [Log WARNING ("puppeteer scrape failed: " +:+ stdout r)])).
Proof.
  intros Hrun Hcode. rewrite PuppeteerDriver_get_run, Hrun.
  by destruct (Z.eqb_spec (returncode r) 0).
Qed.

End Drivers.


(** ** The claims of the specification *)


(** Find the write among the events of a trace given by cases. *)
Ltac pick_write Hin :=
  unfold lost_exchange in Hin;
  try match type of Hin with
      | context [lost_at ?env] => destruct (lost_at env)
      end;
  cbn [In exchange app] in Hin;
  repeat (destruct Hin as [Hin|Hin];
          [try discriminate Hin; try (by injection Hin as <-)|]);
  try done.

(** C9: every request written to the fetch service is the serialization of
    the message with id 1337, the target's URL and the driver's configured
    timeout, whatever the target; a peer that deserializes it reads back
    id 1337 and that timeout. *)
Theorem C9_request_id_and_timeout self url env s evs data :
  socket (LeanAndMeanDriver_get self url env s).2 = socket s ++ evs →
  In (EvWrite data) evs →
  data = Request.SerializeToString
           (Request.mk 1337 (str url) (timeout (base self))) ∧
  (short (str_encode (str url)) →
   ∃ request, Request.ParseFromString data = Some request ∧
     Request.id request = 1337 ∧
     Request.timeout request = timeout (base self) ∧
     Request.url request = str url).
Proof.
  unfold LeanAndMeanDriver_get. intros Hevs Hin.
  assert (Hdata : data = Request.SerializeToString (request_for self url) ∧
                  Wire.in_int32 (timeout (lean_and_mean_base self))).
  { destruct (fetch_service env "127.0.0.1" 3080) as [peer|] eqn:Hsvc.
    - destruct (Wire.in_int32b (timeout (lean_and_mean_base self))) eqn:Hr.
      + split; [|by apply in_int32b_true].
        rewrite (get_impl_accepted _ _ _ _ _ Hsvc Hr) in Hevs. cbv zeta in Hevs.
        destruct (peer _) as [reply|e];
          [destruct (Response.ParseFromString reply)|];
          cbn [snd socket] in Hevs; apply app_inv_head in Hevs; subst evs;
          pick_write Hin.
      + rewrite (get_impl_out_of_range _ _ _ _ _ Hsvc Hr) in Hevs.
        cbn [snd socket] in Hevs. apply app_inv_head in Hevs. subst evs.
        pick_write Hin.
    - rewrite (get_impl_refused _ _ _ _ Hsvc) in Hevs.
      cbn [snd socket] in Hevs. apply app_inv_head in Hevs. subst evs.
      pick_write Hin. }
  destruct Hdata as [-> Hrange]. split; [done|].
  intros Hshort. exists (request_for self url). split; [|done].
  apply Request_roundtrip; [by vm_compute | done | done].
Qed.

Lemma C9_request_id_and_timeout_witness :
  ∃ request,
    Request.ParseFromString (Request.SerializeToString example_request)
    = Some request ∧
    Request.id request = 1337 ∧ Request.timeout request = 15 ∧
    Request.url request = "http://example.test".
Proof.
  refine (proj2 (C9_request_id_and_timeout example_lean_and_mean example_target
            (with_service (λ _, Returned []) quiet_env) initial_state
            (exchange (Request.SerializeToString example_request))
            (Request.SerializeToString example_request) _ _) _).
  - vm_compute. reflexivity.
  - right. left. reflexivity.
  - vm_compute. reflexivity.
Defined.

(** C5: when the read succeeds and the bytes deserialize as [response], the
    call returns an [HttpGetResponse] whose [text] is [response.data] (raw
    bytes), whose [status_code] is [response.status_code] and whose [url]
    is the requested target. *)
Theorem C5_response_mapping self target env s peer data response :
  fetch_service env "127.0.0.1" 3080 = Some peer →
  Wire.in_int32 (timeout (base self)) →
  peer (Request.SerializeToString (request_for self target)) = Returned data →
  Response.ParseFromString data = Some response →
  ∃ result,
    (LeanAndMeanDriver_get self target env s).1 = Returned (Some result) ∧
    text result = Bytes (Response.data response) ∧
    status_code result = Some (Response.status_code response) ∧
    url result = UrlObj target.
Proof.
  intros Hsvc Hr%in_int32b_true Hpeer Hparse. unfold LeanAndMeanDriver_get.
  rewrite (get_impl_accepted _ _ _ _ _ Hsvc Hr). cbv zeta.
  rewrite Hpeer, Hparse. eexists. by cbn.
Qed.

Lemma C5_response_mapping_witness :
  ∃ result,
    (LeanAndMeanDriver_get example_lean_and_mean example_target
       (with_service
          (λ _, Returned (Response.SerializeToString
                            (Response.mk 1337 200 (str_encode "<html>"))))
          quiet_env) initial_state).1 = Returned (Some result) ∧
    text result = Bytes (str_encode "<html>") ∧
    status_code result = Some 200 ∧
    url result = UrlObj example_target.
Proof.
  apply (C5_response_mapping example_lean_and_mean example_target _
           initial_state
           (λ _, Returned (Response.SerializeToString
                             (Response.mk 1337 200 (str_encode "<html>"))))
           (Response.SerializeToString
              (Response.mk 1337 200 (str_encode "<html>")))
           (Response.mk 1337 200 (str_encode "<html>"))).
  - reflexivity.
  - vm_compute. split; [discriminate | reflexivity].
  - reflexivity.
  - vm_compute. reflexivity.
Defined.

(** C3: the result does not depend on the id of the response.  Two replies
    that deserialize to responses with the same [status_code] and [data],
    whatever their ids, give the same returned [HttpGetResponse]; no id
    makes the call fail. *)
Theorem C3_response_id_ignored self target env s reply1 reply2 r1 r2 :
  Wire.in_int32 (timeout (base self)) →
  Response.ParseFromString reply1 = Some r1 →
  Response.ParseFromString reply2 = Some r2 →
  Response.status_code r1 = Response.status_code r2 →
  Response.data r1 = Response.data r2 →
  let fetch_with reply :=
    (LeanAndMeanDriver_get self target
       (with_service (λ _, Returned reply) env) s).1 in
  fetch_with reply1 = fetch_with reply2 ∧
  ∃ result, fetch_with reply1 = Returned (Some result).
Proof.
  intros Hr%in_int32b_true Hp1 Hp2 Hst Hdata fetch_with.
  unfold fetch_with, LeanAndMeanDriver_get.
  assert (Hsvc : ∀ reply,
    fetch_service (with_service (λ _, Returned reply) env) "127.0.0.1" 3080
    = Some (λ _, Returned reply)) by done.
  rewrite (get_impl_accepted _ _ _ _ _ (Hsvc reply1) Hr),
    (get_impl_accepted _ _ _ _ _ (Hsvc reply2) Hr).
  cbv zeta. rewrite Hp1, Hp2. cbn [fst]. rewrite Hst, Hdata. eauto.
Qed.

Lemma C3_response_id_ignored_witness :
  let fetch_with reply :=
    (LeanAndMeanDriver_get example_lean_and_mean example_target
       (with_service (λ _, Returned reply) quiet_env) initial_state).1 in
  fetch_with (Response.SerializeToString (Response.mk 1337 200 [x68; x69]))
  = fetch_with (Response.SerializeToString (Response.mk 42 200 [x68; x69])) ∧
  ∃ result,
    fetch_with (Response.SerializeToString (Response.mk 1337 200 [x68; x69]))
    = Returned (Some result).
Proof.
  apply (C3_response_id_ignored example_lean_and_mean example_target quiet_env
           initial_state _ _
           (Response.mk 1337 200 [x68; x69]) (Response.mk 42 200 [x68; x69])).
  - vm_compute. split; [discriminate | reflexivity].
  - vm_compute. reflexivity.
  - vm_compute. reflexivity.
  - reflexivity.
  - reflexivity.
Defined.

(** C6: the request with id 1337, url "http://example.test" and timeout 15
    survives serialization followed by deserialization unchanged. *)
Theorem C6_request_roundtrip :
  Request.ParseFromString
    (Request.SerializeToString (Request.mk 1337 "http://example.test" 15))
  = Some (Request.mk 1337 "http://example.test" 15).
Proof.
  apply Request_roundtrip.
  - vm_compute. split; [discriminate | reflexivity].
  - vm_compute. split; [discriminate | reflexivity].
  - vm_compute. reflexivity.
Qed.

(** C2 (as stated, refuted): against a service that closes the connection
    without writing a byte, the call raises nothing and returns a response
    with an empty body. *)
Lemma C2_counterexample :
  (LeanAndMeanDriver_get example_lean_and_mean example_target
     (with_service (λ _, Returned []) quiet_env) initial_state).1
  = Returned (Some (mkHttpGetResponse (Bytes []) (UrlObj example_target)
                      (Some 0))).
Proof. vm_compute. reflexivity. Qed.

(** C2 (amended): when the read-to-EOF yields zero bytes, these deserialize
    as the default response and the call returns an [HttpGetResponse] with
    the empty body, status code 0 and the requested target; no exception is
    raised. *)
Theorem C2_empty_reply_is_success self target env s peer :
  fetch_service env "127.0.0.1" 3080 = Some peer →
  Wire.in_int32 (timeout (base self)) →
  peer (Request.SerializeToString (request_for self target)) = Returned [] →
  (LeanAndMeanDriver_get self target env s).1
  = Returned (Some (mkHttpGetResponse (Bytes []) (UrlObj target) (Some 0))).
Proof.
  intros Hsvc Hr%in_int32b_true Hpeer. unfold LeanAndMeanDriver_get.
  rewrite (get_impl_accepted _ _ _ _ _ Hsvc Hr). cbv zeta.
  rewrite Hpeer. reflexivity.
Qed.

Lemma C2_empty_reply_is_success_witness :
  (LeanAndMeanDriver_get example_lean_and_mean example_target
     (with_service (λ _, Returned []) quiet_env) initial_state).1
  = Returned (Some (mkHttpGetResponse (Bytes []) (UrlObj example_target)
                      (Some 0))).
Proof.
  apply (C2_empty_reply_is_success example_lean_and_mean example_target _
           initial_state (λ _, Returned [])).
  - reflexivity.
  - vm_compute. split; [discriminate | reflexivity].
  - reflexivity.
Defined.

(** C7 (as stated, refuted): a fetch whose reply does not deserialize, or
    whose read fails, raises after the read and never closes the
    connection. *)
Lemma C7_counterexample :
  let undecodable :=
    LeanAndMeanDriver_get example_lean_and_mean example_target
      (with_service (λ _, Returned [x80]) quiet_env) initial_state in
  let reset :=
    LeanAndMeanDriver_get example_lean_and_mean example_target
      (with_service (λ _, Raised (Exc ConnectionResetError "reset")) quiet_env)
      initial_state in
  let request := Request.SerializeToString example_request in
  undecodable.1 = Raised (Exc DecodeError "Error parsing message") ∧
  socket undecodable.2
  = [EvOpen "127.0.0.1" 3080; EvWrite request; EvWriteEof; EvDrain; EvRead] ∧
  ¬ In EvClose (socket undecodable.2) ∧
  reset.1 = Raised (Exc ConnectionResetError "reset") ∧
  ¬ In EvClose (socket reset.2).
Proof.
  vm_compute. repeat split; try reflexivity; intros H;
    repeat (destruct H as [H|H]; [discriminate H|]); exact H.
Qed.

(** C7 (amended): the socket events of every fetch are an initial segment
    of the exchange open, one write of the serialized request, half-close,
    drain, read to end-of-stream, close, wait-closed; a fetch that returns
    performs the whole exchange.  So at most one write happens, none after
    the half-close, and no read before the request is written. *)
Theorem C7_wire_exchange_order self target env s :
  let request := Request.SerializeToString (request_for self target) in
  let outcome := LeanAndMeanDriver_get self target env s in
  ∃ evs,
    socket outcome.2 = socket s ++ evs ∧
    evs `prefix_of` exchange request ∧
    match outcome.1 with
    | Returned _ => evs = exchange request
    | Raised _ => True
    end ∧
    (count_writes evs <= 1)%nat ∧
    no_write_after_eof evs ∧
    no_read_before_write evs.
Proof.
  intros request outcome. unfold outcome, LeanAndMeanDriver_get.
  destruct (get_impl_events self target env s) as (evs & Hevs & Hcase).
  cbv zeta in Hcase. fold request in Hcase.
  assert (Hpre : evs `prefix_of` exchange request).
  { destruct (get_impl self target env s).1.
    - by rewrite Hcase.
    - destruct Hcase as [-> | [step ->]]; [|apply lost_exchange_prefix].
      unfold exchange.
      by exists [EvWrite request; EvWriteEof; EvDrain; EvRead; EvClose;
                 EvWaitClosed]. }
  exists evs. split; [done|]. split; [done|]. split; [|split; [|split]].
  - by destruct (get_impl self target env s).1.
  - etrans; [by apply count_writes_prefix|]. done.
  - eapply no_write_after_eof_prefix; [done|].
    apply exchange_no_write_after_eof.
  - eapply no_read_before_write_prefix; [done|].
    apply exchange_no_read_before_write.
Qed.

(** C1 (the defect): when the node script exits with a non-zero code,
    [PuppeteerDriver.get] logs a warning and falls off the end of the
    function: the call returns [None], neither a response nor an
    exception. *)
Theorem C1_puppeteer_returns_None :
  fetch (Puppeteer example_puppeteer) example_target
    (with_node (Returned (mkCompletedProcess 1 "TimeoutError")) ∅ quiet_env)
    initial_state
  = (Returned None,
     mkState ∅ [] [Log WARNING "puppeteer scrape failed: TimeoutError"]).
Proof.
  cbn [fetch get PuppeteerDriver_class].
  rewrite (PuppeteerDriver_get_failed _ _ _ _
             (mkCompletedProcess 1 "TimeoutError") ∅); [|done..].
  reflexivity.
Qed.

Section Construction.

(** *** Paths *)

Lemma last_char_app s t : t ≠ EmptyString → last_char (s +:+ t) = last_char t.
Proof.
  intros Ht. induction s as [|a s IH]; [done|].
  assert (Hne : s +:+ t ≠ EmptyString) by (by destruct s).
  change (String a s +:+ t) with (String a (s +:+ t)).
  rewrite <- IH. by destruct (s +:+ t).
Qed.

Lemma append_assoc (a b c : string) : (a +:+ b) +:+ c = a +:+ (b +:+ c).
Proof.
  induction a as [|x a IH]; [done|].
  change (String x ((a +:+ b) +:+ c) = String x (a +:+ (b +:+ c))).
  by rewrite IH.
Qed.

Lemma concat_snoc sep parts name :
  ∃ pre, String.concat sep (parts ++ [name]) = pre +:+ name.
Proof.
  induction parts as [|part parts [pre IH]]; [by exists EmptyString|].
  exists (part +:+ sep +:+ pre).
  change ((part :: parts) ++ [name]) with (part :: (parts ++ [name])).
  destruct (parts ++ [name]) as [|x xs] eqn:E; [by destruct parts|].
  change (String.concat sep (part :: x :: xs))
    with (part +:+ sep +:+ String.concat sep (x :: xs)).
  by rewrite IH, !append_assoc.
Qed.

Lemma path_str_snoc root parts name : name ≠ EmptyString →
  last_char (path_str root (parts ++ [name])) = last_char name.
Proof.
  intros Hne. unfold path_str.
  destruct (concat_snoc "/" parts name) as [pre Hpre].
  assert (Happ : root +:+ String.concat "/" (parts ++ [name])
                 = (root +:+ pre) +:+ name)
    by (by rewrite Hpre, append_assoc).
  destruct root; [destruct (parts ++ [name]) eqn:E; [by destruct parts|]|];
    rewrite Happ; by apply last_char_app.
Qed.

(** A path below a directory ends like the name it was given. *)
Lemma path_join_chromedriver dir :
  last_char (path_join dir "chromedriver") = Some "r"%char.
Proof.
  unfold path_join.
  change (path_root "chromedriver") with EmptyString.
  change (path_parts "chromedriver") with ["chromedriver"].
  cbn [String.eqb]. by rewrite path_str_snoc.
Qed.

Lemma path_join_scrape_js dir :
  last_char (path_join dir "scrape.js") = Some "s"%char.
Proof.
  unfold path_join.
  change (path_root "scrape.js") with EmptyString.
  change (path_parts "scrape.js") with ["scrape.js"].
  cbn [String.eqb]. by rewrite path_str_snoc.
Qed.

Lemma last_char_dir_entry path : last_char (dir_entry path) = Some "/"%char.
Proof. unfold dir_entry. by rewrite last_char_app. Qed.

(** The installed chromedriver, the scrape script and the entries of the
    directories are different paths, wherever the working directory and
    the module are. *)
Lemma selenium_driver_path_not_script env env' :
  selenium_driver_path env ≠ scrape_script_path env'.
Proof.
  unfold selenium_driver_path, scrape_script_path. intros Heq.
  apply (f_equal last_char) in Heq.
  by rewrite path_join_chromedriver, path_join_scrape_js in Heq.
Qed.

Lemma selenium_driver_path_not_dir env path :
  selenium_driver_path env ≠ dir_entry path.
Proof.
  unfold selenium_driver_path. intros Heq.
  apply (f_equal last_char) in Heq.
  by rewrite path_join_chromedriver, last_char_dir_entry in Heq.
Qed.

Lemma scrape_script_path_not_dir env path :
  scrape_script_path env ≠ dir_entry path.
Proof.
  unfold scrape_script_path. intros Heq.
  apply (f_equal last_char) in Heq.
  by rewrite path_join_scrape_js, last_char_dir_entry in Heq.
Qed.

(** *** The file system calls *)

Lemma path_exists_lookup path env s :
  path_exists path env s
  = (Returned (match files s !! path with Some _ => true | None => false end),
     s).
Proof.
  unfold path_exists. f_equal. f_equal.
  destruct (files s !! path) as [c|].
  - apply bool_decide_eq_true. by eexists.
  - apply bool_decide_eq_false. by intros [? ?].
Qed.

(** *** The patch loop *)

Lemma patch_variable_run dst v env s :
  patch_variable dst v env s
  = let replacement := random_replacement env v in
    let cmd := ["perl"; "-pi"; "-e";
                "s/" +:+ v +:+ "/" +:+ replacement +:+ "/g"; dst] in
    let found :=
      Log DEBUG ("found variable in chromedriver: " +:+ v
                 +:+ ", replacing with " +:+ replacement) in
    let files' := (subprocess_run env cmd).2 ∪ files s in
    match (subprocess_run env cmd).1 with
    | Raised e => (Raised e, mkState files' (socket s) (log s ++ [found]))
    | Returned r =>
        (Returned (),
         mkState files' (socket s)
           (log s ++ found ::
              if negb (returncode r =? 0)
              then [Log WARNING ("chromedriver patch failed: " +:+ stdout r)]
              else []))
    end.
Proof.
  unfold patch_variable, mbind, M_bind, ask, logging_debug, logging_warning,
    logging, run_process. cbv zeta. cbn [files socket log].
  destruct (subprocess_run env _) as [[r|e] created]; cbn [fst snd]; [|done].
  destruct (negb _); cbn [files socket log].
  - by rewrite <- List.app_assoc.
  - done.
Qed.

(** The patch loop touches neither the socket nor a file that no
    subprocess writes. *)
Lemma for_each_patch_frame dst env vs : ∀ s,
  let s' := (for_each vs (patch_variable dst) env s).2 in
  socket s' = socket s ∧
  ∀ path, (∀ cmd, (subprocess_run env cmd).2 !! path = None) →
          files s' !! path = files s !! path.
Proof.
  induction vs as [|v vs IH]; intros s; [done|].
  cbn [for_each]. unfold mbind, M_bind.
  rewrite patch_variable_run. cbv zeta.
  destruct (subprocess_run env _) as [[r|e] created] eqn:Hrun; cbn [fst snd].
  - match goal with
    | |- context [for_each vs _ env ?s0] => destruct (IH s0) as [Hsock Hfiles]
    end.
    cbn [socket files] in Hsock, Hfiles. split; [done|].
    intros path Hpath. rewrite Hfiles by done.
    apply lookup_union_r. specialize (Hpath
      ["perl"; "-pi"; "-e";
       "s/" +:+ v +:+ "/" +:+ random_replacement env v +:+ "/g"; dst]).
    by rewrite Hrun in Hpath.
  - cbn [socket files]. split; [done|].
    intros path Hpath. apply lookup_union_r. specialize (Hpath
      ["perl"; "-pi"; "-e";
       "s/" +:+ v +:+ "/" +:+ random_replacement env v +:+ "/g"; dst]).
    by rewrite Hrun in Hpath.
Qed.


(** The loop over [driver_paths], for a source binary [p] that exists. *)
Lemma install_chromedriver_copy p paths dst env s contents :
  files s !! p = Some contents →
  install_chromedriver (p :: paths) dst env s
  = let s_copy := mkState (<[dst := contents]> (files s)) (socket s) (log s) in
    match <[dst := contents]> (files s) !! p with
    | None =>
        (Raised (Exc FileNotFoundError ("No such file or directory: " +:+ p)),
         s_copy)
    | Some data =>
        match decode_all (re_findall_cdc data) with
        | Raised e => (Raised e, s_copy)
        | Returned variables =>
            for_each (set_iter env variables) (patch_variable dst) env s_copy
        end
    end.
Proof.
  intros Hp. cbn [install_chromedriver]. unfold mbind at 1, M_bind at 1.
  rewrite path_exists_lookup, Hp.
  unfold shutil_copy, mbind, M_bind, read_file, write_file, lift, ask.
  rewrite Hp. cbn [files socket log]. cbv zeta.
  destruct (<[dst := contents]> (files s) !! p) as [data|]; [|done].
  by destruct (decode_all _).
Qed.

Lemma install_chromedriver_skip p paths dst env s :
  files s !! p = None →
  install_chromedriver (p :: paths) dst env s
  = install_chromedriver paths dst env s.
Proof.
  intros Hp. cbn [install_chromedriver]. unfold mbind at 1, M_bind at 1.
  by rewrite path_exists_lookup, Hp.
Qed.

(** Installing the chromedriver touches neither the socket nor a file
    that is not the installed driver and that no subprocess writes. *)
Lemma install_chromedriver_frame dst env paths : ∀ s,
  let s' := (install_chromedriver paths dst env s).2 in
  socket s' = socket s ∧
  ∀ path, path ≠ dst →
          (∀ cmd, (subprocess_run env cmd).2 !! path = None) →
          files s' !! path = files s !! path.
Proof.
  induction paths as [|p paths IH]; intros s; [done|].
  destruct (files s !! p) as [contents|] eqn:Hp.
  - rewrite (install_chromedriver_copy _ _ _ _ _ _ Hp). cbv zeta.
    destruct (<[dst := contents]> (files s) !! p) as [data|].
    + destruct (decode_all _) as [variables|e].
      * destruct (for_each_patch_frame dst env (set_iter env variables)
                    (mkState (<[dst := contents]> (files s)) (socket s) (log s)))
          as [Hsock Hfiles].
        cbn [socket files] in Hsock, Hfiles. split; [done|].
        intros path Hne Hpath. rewrite Hfiles by done.
        by apply lookup_insert_ne.
      * cbn [snd socket files]. split; [done|].
        intros path Hne _. by apply lookup_insert_ne.
    + cbn [snd socket files]. split; [done|].
      intros path Hne _. by apply lookup_insert_ne.
  - rewrite (install_chromedriver_skip _ _ _ _ _ Hp). apply IH.
Qed.

(** Without a chromedriver at a system path the loop does nothing. *)
Lemma install_chromedriver_none dst env s :
  files s !! "/usr/bin/chromedriver" = None →
  files s !! "/usr/local/bin/chromedriver" = None →
  install_chromedriver driver_paths dst env s = (Returned (), s).
Proof.
  intros H1 H2. unfold driver_paths.
  by rewrite !install_chromedriver_skip.
Qed.


(** *** The constructors *)

(** What the constructor of [SeleniumDriver] returns, when it returns. *)
Lemma SeleniumDriver_init_returned data_dir t env s d s' :
  SeleniumDriver_init data_dir t env s = (Returned d, s') →
  ∃ user,
    getuser env = Returned user ∧
    d = mkSeleniumDriver (mkDriver data_dir t) (path_join (cwd env) "selenium")
          (selenium_driver_path env) (chrome_options user env) ∧
    socket s' = socket s ∧
    is_Some (files s' !! selenium_driver_path env).
Proof.
  unfold SeleniumDriver_init, mbind at 1 2 3, M_bind at 1 2 3, ask.
  fold (selenium_driver_path env).
  unfold mkdir_exist_ok at 1.
  destruct (files s !! path_join (cwd env) "selenium"); [done|].
  match goal with
  | |- context [install_chromedriver ?ps ?dst env ?s0] =>
      pose proof (install_chromedriver_frame dst env ps s0) as [Hsock _];
      destruct (install_chromedriver ps dst env s0) as [[[]|e] s1]; [|done]
  end.
  cbn [snd socket] in Hsock.
  unfold mbind, M_bind. rewrite path_exists_lookup.
  destruct (files s1 !! selenium_driver_path env) as [c|] eqn:Hc; [|done].
  unfold lift. destruct (getuser env) as [user|e]; [|done].
  unfold mret, M_ret. intros [= <- <-].
  exists user. by rewrite Hc.
Qed.

Lemma SeleniumDriver_init_base data_dir t env s d s' :
  SeleniumDriver_init data_dir t env s = (Returned d, s') →
  selenium_base d = mkDriver data_dir t.
Proof. by intros (user & _ & -> & _)%SeleniumDriver_init_returned. Qed.

Lemma PuppeteerDriver_init_found data_dir t env s :
  PuppeteerDriver_init data_dir t env s
  = match files s !! scrape_script_path env with
    | Some _ =>
        (Returned (mkPuppeteerDriver (mkDriver data_dir t)
                     (scrape_script_path env)), s)
    | None =>
        (Raised (Exc Exception ("does not exist: " +:+ scrape_script_path env)),
         s)
    end.
Proof.
  unfold PuppeteerDriver_init, mbind, M_bind, ask.
  fold (scrape_script_path env). rewrite path_exists_lookup.
  by destruct (files s !! scrape_script_path env).
Qed.

Lemma PuppeteerDriver_init_base data_dir t env s d s' :
  PuppeteerDriver_init data_dir t env s = (Returned d, s') →
  puppeteer_base d = mkDriver data_dir t.
Proof.
  rewrite PuppeteerDriver_init_found.
  destruct (_ !! _); [|done]. by intros [= <- _].
Qed.

(** [DriverRepo.__init__], step by step. *)
Lemma DriverRepo_init_found t env s :
  DriverRepo_init t env s
  = let data_dir := path_join (cwd env) "data" in
    match files s !! data_dir with
    | Some _ =>
        (Raised (Exc FileExistsError
                   ("[Errno 17] File exists: " +:+ data_dir)), s)
    | None =>
        let s0 := mkState (<[dir_entry data_dir := EmptyString]> (files s))
                    (socket s) (log s) in
        match SeleniumDriver_init data_dir t env s0 with
        | (Raised e, s1) => (Raised e, s1)
        | (Returned sd, s1) =>
            match files s1 !! scrape_script_path env with
            | Some _ =>
                (Returned (mkDriverRepo data_dir
                             (mkRequestsDriver (mkDriver data_dir t)) sd
                             (mkPuppeteerDriver (mkDriver data_dir t)
                                (scrape_script_path env))
                             (mkLeanAndMeanDriver (mkDriver data_dir t))), s1)
            | None =>
                (Raised (Exc Exception
                           ("does not exist: " +:+ scrape_script_path env)), s1)
            end
        end
    end.
Proof.
  unfold DriverRepo_init, mbind, M_bind, ask, RequestsDriver_init,
    LeanAndMeanDriver_init, mret, M_ret, mkdir_exist_ok. cbv zeta.
  destruct (files s !! path_join (cwd env) "data"); [done|].
  destruct (SeleniumDriver_init _ t env _) as [[sd|e] s1]; [|done].
  rewrite PuppeteerDriver_init_found.
  by destruct (files s1 !! scrape_script_path env).
Qed.

Lemma DriverRepo_init_bases t env s repo s' :
  DriverRepo_init t env s = (Returned repo, s') →
  Forall (λ b, backend_base b = mkDriver (path_join (cwd env) "data") t)
    (backends repo) ∧
  repo_data_dir repo = path_join (cwd env) "data" ∧
  socket s' = socket s.
Proof.
  rewrite DriverRepo_init_found. cbv zeta.
  destruct (files s !! path_join (cwd env) "data"); [done|].
  destruct (SeleniumDriver_init _ t env _) as [[sd|e] s1] eqn:Hsel; [|done].
  destruct (files s1 !! scrape_script_path env); [|done].
  intros [= <- <-].
  apply SeleniumDriver_init_returned in Hsel as (user & _ & -> & Hsock & _).
  cbn [socket] in Hsock.
  split; [|done]. unfold backends. repeat constructor; done.
Qed.

(** [init_drivers] builds the repository with the timeout it computed. *)
Lemma init_drivers_returned config env s repo s' :
  init_drivers config env s = (Returned repo, s') →
  ∃ t, effective_timeout config = Returned t ∧
       DriverRepo_init t env s = (Returned repo, s').
Proof.
  unfold init_drivers, mbind, M_bind, lift.
  destruct (effective_timeout config) as [t|e]; [|done].
  intros Hinit. by exists t.
Qed.


End Construction.

(** C4 (as stated, refuted): with a refresh interval of 15.5 seconds the
    maximum of the refresh interval and 15 is 15.5, and every driver of the
    repository is constructed with the timeout 15. *)
Lemma C4_counterexample :
  let config := mkConfig (PyFloating (Finite (QArith_base.Qmake 31 2))) in
  py_max (refresh_interval config) 15
  = Returned (PyFloating (Finite (QArith_base.Qmake 31 2))) ∧
  ∃ repo s',
    init_drivers config quiet_env installed_state = (Returned repo, s') ∧
    Forall (λ b, timeout (backend_base b) = 15) (backends repo).
Proof.
  split; [reflexivity|].
  eexists _, _. split; [vm_compute; reflexivity|].
  repeat constructor.
Qed.



(** C10: a response returned by [SeleniumDriver] or [PuppeteerDriver] has
    [status_code] [None], the default of the constructor; one returned by
    [RequestsDriver] or [LeanAndMeanDriver] carries a status code. *)
Theorem C10_status_code_default b target env s result s' :
  fetch b target env s = (Returned (Some result), s') →
  (if populates_status b then is_Some (status_code result)
   else status_code result = None) ∧
  ∀ body u, status_code (HttpGetResponse_init body u ∅) = None.
Proof.
  intros Hfetch. split; [|intros; by rewrite HttpGetResponse_init_default].
  destruct b as [d|d|d|d];
    cbn [fetch get RequestsDriver_class SeleniumDriver_class
         PuppeteerDriver_class LeanAndMeanDriver_class populates_status]
      in *.
  - rewrite RequestsDriver_get_answered in Hfetch.
    destruct (requests_get env _ _ _); [|done].
    injection Hfetch as <- _. by eexists.
  - unfold SeleniumDriver_get, mbind, M_bind, ask, lift, try_except in Hfetch.
    destruct (chrome_start env _ _); [|done].
    destruct (chrome_get env _); [|done].
    rewrite HttpGetResponse_init_default in Hfetch.
    destruct (save_screenshot _ _) as [[?|]|?];
      by injection Hfetch as <- _.
  - rewrite PuppeteerDriver_get_run in Hfetch.
    destruct (subprocess_run env _) as [[r|e] created]; [|done].
    destruct (negb _); [done|].
    destruct (_ !! _); [|done]. by injection Hfetch as <- _.
  - unfold LeanAndMeanDriver_get in Hfetch.
    destruct (fetch_service env "127.0.0.1" 3080) as [peer|] eqn:Hsvc.
    + destruct (Wire.in_int32b (timeout (lean_and_mean_base d))) eqn:Hr.
      * rewrite (get_impl_accepted _ _ _ _ _ Hsvc Hr) in Hfetch.
        cbv zeta in Hfetch.
        destruct (peer _) as [reply|]; [|done].
        destruct (Response.ParseFromString reply); [|done].
        injection Hfetch as <- _. by eexists.
      * by rewrite (get_impl_out_of_range _ _ _ _ _ Hsvc Hr) in Hfetch.
    + by rewrite (get_impl_refused _ _ _ _ Hsvc) in Hfetch.
Qed.

Lemma C10_status_code_default_witness :
  status_code (mkHttpGetResponse (Text "<html></html>")
                 (UrlObj example_target) None) = None.
Proof.
  exact (proj1 (C10_status_code_default (Selenium example_selenium)
                  example_target
                  (with_chrome page_without_screenshot quiet_env)
                  initial_state _ _ eq_refl)).
Defined.




(* ===================================================================== *)
(** * Further properties of the drivers *)

(** ** [LeanAndMeanDriver.get_impl]: failures *)

(** X1: when nobody listens on 127.0.0.1:3080 the call raises
    [ConnectionRefusedError]; no request is written, nothing is logged and
    no file is touched. *)
Theorem get_impl_connection_refused self target env s :
  fetch_service env "127.0.0.1" 3080 = None →
  let outcome := LeanAndMeanDriver_get self target env s in
  raises ConnectionRefusedError outcome.1 ∧
  socket outcome.2 = socket s ++ [EvOpen "127.0.0.1" 3080] ∧
  count_writes (socket outcome.2) = count_writes (socket s) ∧
  log outcome.2 = log s ∧
  files outcome.2 = files s.
Proof.
  intros Hsvc outcome. unfold outcome, LeanAndMeanDriver_get.
  rewrite (get_impl_refused _ _ _ _ Hsvc). cbn [fst snd socket log files raises
    exc_class].
  repeat split. unfold count_writes.
  rewrite List.filter_app, length_app. simpl. lia.
Qed.

Lemma get_impl_connection_refused_witness :
  raises ConnectionRefusedError
    (LeanAndMeanDriver_get example_lean_and_mean example_target quiet_env
       initial_state).1.
Proof.
  exact (proj1 (get_impl_connection_refused example_lean_and_mean
                  example_target quiet_env initial_state eq_refl)).
Defined.

(** X2: a driver whose timeout does not fit the request's [int32] field
    raises [ValueError] at [request.timeout = self.timeout]: the connection
    is already open, nothing is written on it and it is never closed. *)
Theorem get_impl_timeout_out_of_range self target env s peer :
  fetch_service env "127.0.0.1" 3080 = Some peer →
  ¬ Wire.in_int32 (timeout (base self)) →
  let outcome := LeanAndMeanDriver_get self target env s in
  raises ValueError outcome.1 ∧
  socket outcome.2 = socket s ++ [EvOpen "127.0.0.1" 3080] ∧
  log outcome.2 = log s.
Proof.
  intros Hsvc Hr outcome. unfold outcome, LeanAndMeanDriver_get.
  assert (Hb : Wire.in_int32b (timeout (lean_and_mean_base self)) = false).
  { destruct (Wire.in_int32b _) eqn:E; [|done].
    by apply in_int32b_true in E. }
  by rewrite (get_impl_out_of_range _ _ _ _ _ Hsvc Hb).
Qed.

Lemma get_impl_timeout_out_of_range_witness :
  raises ValueError
    (LeanAndMeanDriver_get
       (mkLeanAndMeanDriver (mkDriver "/app/data" (2 ^ 31)))
       example_target (with_service (λ _, Returned []) quiet_env)
       initial_state).1.
Proof.
  refine (proj1 (get_impl_timeout_out_of_range
                   (mkLeanAndMeanDriver (mkDriver "/app/data" (2 ^ 31)))
                   example_target (with_service (λ _, Returned []) quiet_env)
                   initial_state (λ _, Returned []) eq_refl _)).
  unfold Wire.in_int32. cbn. lia.
Defined.

(** X3: when the connection fails, the exception reaches the caller from
    the call that notices the failure, [write_eof()], [drain()] or
    [read()]; the request was written before, no later call of the
    exchange is made, the connection is not closed and nothing is
    logged. *)
Theorem get_impl_connection_lost self target env s peer e :
  fetch_service env "127.0.0.1" 3080 = Some peer →
  Wire.in_int32 (timeout (base self)) →
  let request := Request.SerializeToString (request_for self target) in
  let outcome := LeanAndMeanDriver_get self target env s in
  peer request = Raised e →
  outcome.1 = Raised e ∧
  socket outcome.2
  = socket s ++ [EvOpen "127.0.0.1" 3080; EvWrite request; EvWriteEof]
    ++ match lost_at env with
       | AtWriteEof => []
       | AtDrain => [EvDrain]
       | AtRead => [EvDrain; EvRead]
       end ∧
  (∀ evs, socket outcome.2 = socket s ++ evs → ¬ In EvClose evs) ∧
  log outcome.2 = log s.
Proof.
  intros Hsvc Hr%in_int32b_true request outcome Hpeer.
  unfold outcome, LeanAndMeanDriver_get.
  rewrite (get_impl_accepted _ _ _ _ _ Hsvc Hr). cbv zeta. fold request.
  rewrite Hpeer. cbn [fst snd socket log]. unfold lost_exchange.
  split; [done|]. split; [done|]. split; [|done].
  intros evs Hevs%app_inv_head. subst evs.
  destruct (lost_at env); cbn [app In]; intros H;
    repeat (destruct H as [H|H]; [discriminate H|]); exact H.
Qed.

Lemma get_impl_connection_lost_witness :
  (LeanAndMeanDriver_get example_lean_and_mean example_target
     (with_lost_at AtDrain
        (with_service (λ _, Raised (Exc ConnectionResetError "reset"))
           quiet_env))
     initial_state).1
  = Raised (Exc ConnectionResetError "reset").
Proof.
  refine (proj1 (get_impl_connection_lost example_lean_and_mean
                   example_target
                   (with_lost_at AtDrain
                      (with_service
                         (λ _, Raised (Exc ConnectionResetError "reset"))
                         quiet_env))
                   initial_state
                   (λ _, Raised (Exc ConnectionResetError "reset"))
                   (Exc ConnectionResetError "reset") eq_refl _ eq_refl)).
  vm_compute. split; [discriminate | reflexivity].
Defined.

(** ** [LeanAndMeanDriver.get_impl]: what a call leaves behind *)

(** X4: a call that returns has logged exactly one DEBUG record; a call
    that raises has logged nothing.  No call touches a file. *)
Theorem get_impl_log_and_files self target env s :
  let outcome := LeanAndMeanDriver_get self target env s in
  match outcome.1 with
  | Returned _ => ∃ msg, log outcome.2 = log s ++ [Log DEBUG msg]
  | Raised _ => log outcome.2 = log s
  end ∧
  files outcome.2 = files s.
Proof.
  intros outcome. unfold outcome, LeanAndMeanDriver_get.
  destruct (fetch_service env "127.0.0.1" 3080) as [peer|] eqn:Hsvc.
  - destruct (Wire.in_int32b (timeout (lean_and_mean_base self))) eqn:Hr.
    + rewrite (get_impl_accepted _ _ _ _ _ Hsvc Hr). cbv zeta.
      destruct (peer _) as [data|e]; [|done].
      destruct (Response.ParseFromString data); [|done].
      cbn. split; [by eexists | done].
    + by rewrite (get_impl_out_of_range _ _ _ _ _ Hsvc Hr).
  - by rewrite (get_impl_refused _ _ _ _ Hsvc).
Qed.

(** X5: against a service that answers with the serialization of a
    well-formed response, whatever its fields, the call returns that
    response's data as body and its status code. *)
Theorem get_impl_decodes_serialized_response self target env s response :
  Wire.in_int32 (timeout (base self)) →
  Response.well_formed response →
  short (Response.data response) →
  (LeanAndMeanDriver_get self target
     (with_service (λ _, Returned (Response.SerializeToString response)) env)
     s).1
  = Returned (Some (mkHttpGetResponse (Bytes (Response.data response))
                      (UrlObj target)
                      (Some (Response.status_code response)))).
Proof.
  intros Hr%in_int32b_true Hwf Hshort.
  by apply get_impl_serialized_response.
Qed.

Lemma get_impl_decodes_serialized_response_witness :
  (LeanAndMeanDriver_get example_lean_and_mean example_target
     (with_service
        (λ _, Returned (Response.SerializeToString
                          (Response.mk (-1) 404 [x6e; x6f])))
        quiet_env) initial_state).1
  = Returned (Some (mkHttpGetResponse (Bytes [x6e; x6f])
                      (UrlObj example_target) (Some 404))).
Proof.
  apply (get_impl_decodes_serialized_response example_lean_and_mean
           example_target quiet_env initial_state
           (Response.mk (-1) 404 [x6e; x6f])).
  - vm_compute. split; [discriminate | reflexivity].
  - vm_compute. repeat split; try discriminate; reflexivity.
  - vm_compute. reflexivity.
Defined.

(** ** [RequestsDriver.get] *)

(** X6: a reply with a 4xx or 5xx status is returned like any other, with
    the server's final URL and the status code, and is logged once at DEBUG
    level; any other status is returned without a log record.  An exception
    of [requests.get] reaches the caller and nothing is logged. *)
Theorem RequestsDriver_get_status self target env s :
  let outcome := RequestsDriver_get self target env s in
  match requests_get env (str target)
          (<["user-agent" := user_agent]>
             (<["referer" := "https://google.com"]> ∅))
          (timeout (base self)) with
  | Returned r =>
      outcome.1 = Returned (Some (mkHttpGetResponse (Text (r_text r))
                                    (UrlStr (r_url r))
                                    (Some (r_status_code r)))) ∧
      if decide (400 <= r_status_code r < 600)
      then ∃ msg, log outcome.2 = log s ++ [Log DEBUG msg]
      else log outcome.2 = log s
  | Raised e => outcome = (Raised e, s)
  end.
Proof.
  intros outcome. unfold outcome. rewrite RequestsDriver_get_answered.
  cbn [base RequestsDriver_class].
  destruct (requests_get env _ _ _) as [r|e]; [|done].
  split; [done|]. cbn [snd]. unfold r_ok.
  destruct (decide _) as [Hc|Hc].
  - replace (400 <=? r_status_code r) with true by lia.
    replace (r_status_code r <? 600) with true by lia.
    cbn. by eexists.
  - destruct (400 <=? r_status_code r) eqn:E1;
      destruct (r_status_code r <? 600) eqn:E2; cbn; try done. lia.
Qed.

(** ** [SeleniumDriver.get] *)

(** X7: when the browser cannot be started or the page cannot be loaded,
    the exception reaches the caller before any screenshot is attempted:
    no file is written and nothing is logged. *)
Theorem SeleniumDriver_get_browser_failure self target env s e :
  chrome_start env (driver_path self) (arguments (options self)) = Raised e ∨
  chrome_start env (driver_path self) (arguments (options self)) = Returned () ∧
  chrome_get env (str target) = Raised e →
  SeleniumDriver_get self target env s = (Raised e, s).
Proof.
  unfold SeleniumDriver_get, mbind, M_bind, ask, lift, try_except.
  by intros [-> | [-> ->]].
Qed.

Lemma SeleniumDriver_get_browser_failure_witness :
  SeleniumDriver_get example_selenium example_target quiet_env initial_state
  = (Raised (Exc WebDriverException "chrome not reachable"), initial_state).
Proof.
  apply SeleniumDriver_get_browser_failure. left. reflexivity.
Defined.



(** ** [PuppeteerDriver.get] *)

(** X9: after a script run that exits with code 0 the page content is
    whatever the HTML file then holds: the dump the script just wrote when
    it wrote one, otherwise the file left there by an earlier run. *)
Theorem PuppeteerDriver_get_fresh_or_stale self target env s r created :
  subprocess_run env (scrape_cmd self target) = (Returned r, created) →
  returncode r = 0 →
  let result := (PuppeteerDriver_get self target env s).1 in
  (∀ content, created !! html_file_of self target = Some content →
     result = Returned (Some (mkHttpGetResponse (Text content) (UrlObj target)
                                None))) ∧
  (∀ content, created !! html_file_of self target = None →
     files s !! html_file_of self target = Some content →
     result = Returned (Some (mkHttpGetResponse (Text content) (UrlObj target)
                                None))).
Proof.
  intros Hrun Hcode result. unfold result.
  rewrite PuppeteerDriver_get_run, Hrun, Hcode. cbn [negb Z.eqb].
  split; intros content.
  - intros Hc. by rewrite (lookup_union_Some_l _ _ _ _ Hc).
  - intros Hn Hc. rewrite lookup_union_r by done. by rewrite Hc.
Qed.

Lemma PuppeteerDriver_get_fresh_or_stale_witness :
  (PuppeteerDriver_get example_puppeteer example_target
     (with_node (Returned (mkCompletedProcess 0 EmptyString)) ∅ quiet_env)
     (mkState {["/app/data/example.html" := "<html>old</html>"]} [] [])).1
  = Returned (Some (mkHttpGetResponse (Text "<html>old</html>")
                      (UrlObj example_target) None)).
Proof.
  apply (proj2 (PuppeteerDriver_get_fresh_or_stale example_puppeteer
                  example_target
                  (with_node (Returned (mkCompletedProcess 0 EmptyString)) ∅
                     quiet_env)
                  (mkState {["/app/data/example.html" := "<html>old</html>"]}
                     [] [])
                  (mkCompletedProcess 0 EmptyString) ∅ eq_refl eq_refl)).
  - reflexivity.
  - vm_compute. reflexivity.
Defined.

(** X10: targets are told apart by nickname only: after a fetch of one
    target, a fetch of another target with the same nickname whose script
    run exits with code 0 without writing a dump returns the first target's
    page. *)
Theorem PuppeteerDriver_get_nickname_collision
    self target1 target2 env s r1 r2 content :
  nickname target1 = nickname target2 →
  subprocess_run env (scrape_cmd self target1)
  = (Returned r1, {[html_file_of self target1 := content]}) →
  returncode r1 = 0 →
  subprocess_run env (scrape_cmd self target2) = (Returned r2, ∅) →
  returncode r2 = 0 →
  let s1 := (PuppeteerDriver_get self target1 env s).2 in
  (PuppeteerDriver_get self target2 env s1).1
  = Returned (Some (mkHttpGetResponse (Text content) (UrlObj target2) None)).
Proof.
  intros Hnick Hrun1 Hc1 Hrun2 Hc2 s1. unfold s1.
  assert (Hfile : html_file_of self target2 = html_file_of self target1)
    by (unfold html_file_of; by rewrite Hnick).
  rewrite (PuppeteerDriver_get_run self target2), Hrun2, Hc2.
  cbn [negb Z.eqb]. rewrite (left_id_L ∅ (∪)), Hfile.
  rewrite (PuppeteerDriver_get_run self target1), Hrun1, Hc1.
  cbn [negb Z.eqb].
  assert (Hin : ({[html_file_of self target1 := content]} ∪ files s)
                  !! html_file_of self target1 = Some content)
    by (apply lookup_union_Some_l, lookup_singleton_eq).
  rewrite Hin. cbn [snd files]. by rewrite Hin.
Qed.

Lemma PuppeteerDriver_get_nickname_collision_witness :
  (PuppeteerDriver_get example_puppeteer colliding_target
     node_writes_first_only
     (PuppeteerDriver_get example_puppeteer example_target
        node_writes_first_only initial_state).2).1
  = Returned (Some (mkHttpGetResponse (Text "<html>first</html>")
                      (UrlObj colliding_target) None)).
Proof.
  apply (PuppeteerDriver_get_nickname_collision example_puppeteer
           example_target colliding_target node_writes_first_only
           initial_state (mkCompletedProcess 0 EmptyString)
           (mkCompletedProcess 0 EmptyString) "<html>first</html>").
  - reflexivity.
  - vm_compute. reflexivity.
  - reflexivity.
  - vm_compute. reflexivity.
  - reflexivity.
Defined.

(** X11: whenever the script exits with a non-zero code the call returns
    [None] and logs one warning carrying the script's output; the HTML
    file is not read, even when one exists, and the files the script left
    are kept. *)
Theorem PuppeteerDriver_get_nonzero_exit self target env s r created :
  subprocess_run env (scrape_cmd self target) = (Returned r, created) →
  returncode r ≠ 0 →
  let outcome := PuppeteerDriver_get self target env s in
  outcome.1 = Returned None ∧
  log outcome.2
  = log s ++ [Log WARNING ("puppeteer scrape failed: " +:+ stdout r)] ∧
  files outcome.2 = created ∪ files s.
Proof.
  intros Hrun Hcode outcome. unfold outcome.
  by rewrite (PuppeteerDriver_get_failed _ _ _ _ _ _ Hrun Hcode).
Qed.

Lemma PuppeteerDriver_get_nonzero_exit_witness :
  (PuppeteerDriver_get example_puppeteer example_target
     (with_node (Returned (mkCompletedProcess 2 "crash"))
        {["/app/data/example.html" := "<html>partial</html>"]} quiet_env)
     initial_state).1
  = Returned None.
Proof.
  refine (proj1 (PuppeteerDriver_get_nonzero_exit example_puppeteer
                   example_target
                   (with_node (Returned (mkCompletedProcess 2 "crash"))
                      {["/app/data/example.html" := "<html>partial</html>"]}
                      quiet_env)
                   initial_state (mkCompletedProcess 2 "crash")
                   {["/app/data/example.html" := "<html>partial</html>"]}
                   eq_refl _)).
  simpl. lia.
Defined.

(** ** Consecutive fetches *)

(** X12: every fetch uses a connection of its own.  Two consecutive
    fetches that return leave two complete exchanges in the trace, each
    opened, half-closed, read and closed, one after the other. *)
Theorem get_impl_twice self target1 target2 env s :
  let first := LeanAndMeanDriver_get self target1 env s in
  let second := LeanAndMeanDriver_get self target2 env first.2 in
  ¬ is_raised first.1 → ¬ is_raised second.1 →
  socket second.2
  = socket s
    ++ exchange (Request.SerializeToString (request_for self target1))
    ++ exchange (Request.SerializeToString (request_for self target2)).
Proof.
  intros first second. unfold second, first, LeanAndMeanDriver_get.
  destruct (get_impl_events self target1 env s) as (evs1 & Hevs1 & Hcase1).
  destruct (get_impl_events self target2 env (get_impl self target1 env s).2)
    as (evs2 & Hevs2 & Hcase2).
  cbv zeta in Hcase1, Hcase2. intros Hok1 Hok2.
  destruct (get_impl self target1 env s).1; [|by destruct Hok1].
  destruct (get_impl self target2 env _).1; [|by destruct Hok2].
  rewrite Hevs2, Hevs1, Hcase1, Hcase2. by rewrite <- List.app_assoc.
Qed.

Lemma get_impl_twice_witness :
  socket (LeanAndMeanDriver_get example_lean_and_mean colliding_target
            (with_service (λ _, Returned []) quiet_env)
            (LeanAndMeanDriver_get example_lean_and_mean example_target
               (with_service (λ _, Returned []) quiet_env) initial_state).2).2
  = socket initial_state
    ++ exchange (Request.SerializeToString
                   (request_for example_lean_and_mean example_target))
    ++ exchange (Request.SerializeToString
                   (request_for example_lean_and_mean colliding_target)).
Proof.
  apply (get_impl_twice example_lean_and_mean example_target colliding_target
           (with_service (λ _, Returned []) quiet_env) initial_state).
  - vm_compute. exact (λ H, H).
  - vm_compute. exact (λ H, H).
Defined.

(** ** All drivers *)

(** X13: no driver removes a log record or a socket event.  Only
    [LeanAndMeanDriver] uses the socket, and neither it nor
    [RequestsDriver] writes a file. *)
Theorem fetch_frame b target env s :
  let s' := (fetch b target env s).2 in
  log s `prefix_of` log s' ∧
  socket s `prefix_of` socket s' ∧
  match b with
  | Requests _ => socket s' = socket s ∧ files s' = files s
  | Selenium _ | Puppeteer _ => socket s' = socket s
  | LeanAndMean _ => files s' = files s
  end.
Proof.
  intros s'. unfold s'. destruct b as [d|d|d|d];
    cbn [fetch get RequestsDriver_class SeleniumDriver_class
         PuppeteerDriver_class LeanAndMeanDriver_class].
  - rewrite RequestsDriver_get_answered.
    destruct (requests_get env _ _ _) as [r|e]; [|done].
    destruct (r_ok r); cbn; [done|].
    split; [by apply prefix_app_r|done].
  - unfold SeleniumDriver_get, mbind, M_bind, ask, lift, try_except.
    destruct (chrome_start env _ _) as [[]|e]; [|done].
    destruct (chrome_get env _) as [page|e]; [|done].
    destruct (save_screenshot page _) as [[image|]|e]; cbn; [done..|].
    split; [by apply prefix_app_r|done].
  - rewrite PuppeteerDriver_get_run.
    destruct (subprocess_run env _) as [[r|e] created]; [|done].
    destruct (negb _); cbn.
    + split; [by apply prefix_app_r|done].
    + by destruct (_ !! _).
  - unfold LeanAndMeanDriver_get.
    destruct (fetch_service env "127.0.0.1" 3080) as [peer|] eqn:Hsvc.
    + destruct (Wire.in_int32b (timeout (lean_and_mean_base d))) eqn:Hr.
      * rewrite (get_impl_accepted _ _ _ _ _ Hsvc Hr). cbv zeta.
        destruct (peer _) as [data|e];
          [destruct (Response.ParseFromString data)|];
          cbn; (split; [|split; [|done]]);
          try done; by apply prefix_app_r.
      * rewrite (get_impl_out_of_range _ _ _ _ _ Hsvc Hr). cbn.
        split; [done|]. split; [by apply prefix_app_r | done].
    + rewrite (get_impl_refused _ _ _ _ Hsvc). cbn.
      split; [done|]. split; [by apply prefix_app_r | done].
Qed.

(** X14: the body is [bytes] exactly when the response comes from
    [LeanAndMeanDriver] and text otherwise; the [url] of the response is
    the target object passed to [get], except for [RequestsDriver], which
    stores the string [r.url] reported by the HTTP library. *)
Theorem fetch_result_kinds b target env s result s' :
  fetch b target env s = (Returned (Some result), s') →
  match b with
  | Requests _ => (∃ t, text result = Text t) ∧ ∃ u, url result = UrlStr u
  | Selenium _ | Puppeteer _ =>
      (∃ t, text result = Text t) ∧ url result = UrlObj target
  | LeanAndMean _ =>
      (∃ data, text result = Bytes data) ∧ url result = UrlObj target
  end.
Proof.
  intros Hfetch. destruct b as [d|d|d|d];
    cbn [fetch get RequestsDriver_class SeleniumDriver_class
         PuppeteerDriver_class LeanAndMeanDriver_class] in Hfetch.
  - rewrite RequestsDriver_get_answered in Hfetch.
    destruct (requests_get env _ _ _); [|done].
    injection Hfetch as <- _. cbn. eauto.
  - unfold SeleniumDriver_get, mbind, M_bind, ask, lift, try_except in Hfetch.
    destruct (chrome_start env _ _); [|done].
    destruct (chrome_get env _); [|done].
    rewrite HttpGetResponse_init_default in Hfetch.
    destruct (save_screenshot _ _) as [[?|]|?];
      injection Hfetch as <- _; cbn; eauto.
  - rewrite PuppeteerDriver_get_run in Hfetch.
    destruct (subprocess_run env _) as [[r|e] created]; [|done].
    destruct (negb _); [done|].
    destruct (_ !! _); [|done]. injection Hfetch as <- _. cbn. eauto.
  - unfold LeanAndMeanDriver_get in Hfetch.
    destruct (fetch_service env "127.0.0.1" 3080) as [peer|] eqn:Hsvc.
    + destruct (Wire.in_int32b (timeout (lean_and_mean_base d))) eqn:Hr.
      * rewrite (get_impl_accepted _ _ _ _ _ Hsvc Hr) in Hfetch.
        cbv zeta in Hfetch.
        destruct (peer _) as [reply|]; [|done].
        destruct (Response.ParseFromString reply); [|done].
        injection Hfetch as <- _. cbn. eauto.
      * by rewrite (get_impl_out_of_range _ _ _ _ _ Hsvc Hr) in Hfetch.
    + by rewrite (get_impl_refused _ _ _ _ Hsvc) in Hfetch.
Qed.

Lemma fetch_result_kinds_witness :
  (∃ t, text (mkHttpGetResponse (Text "moved") (UrlStr "http://example.test/new")
                (Some 200)) = Text t) ∧
  ∃ u, url (mkHttpGetResponse (Text "moved") (UrlStr "http://example.test/new")
              (Some 200)) = UrlStr u.
Proof.
  exact (fetch_result_kinds (Requests example_requests) example_target
           (with_http (mkRequestsResponse "moved" "http://example.test/new" 200)
              quiet_env)
           initial_state _ _ eq_refl).
Defined.

(** ** The constructors *)

Lemma system_path_not_dir path :
  "/usr/bin/chromedriver" ≠ dir_entry path ∧
  "/usr/local/bin/chromedriver" ≠ dir_entry path.
Proof.
  split; intros Heq; apply (f_equal last_char) in Heq;
    by rewrite last_char_dir_entry in Heq.
Qed.

(** The constructor of [SeleniumDriver] when [selenium] is not a regular
    file: the directory is made, then the loop runs. *)
Lemma SeleniumDriver_init_run data_dir t env s :
  files s !! path_join (cwd env) "selenium" = None →
  SeleniumDriver_init data_dir t env s
  = let s0 :=
      mkState (<[dir_entry (path_join (cwd env) "selenium") := EmptyString]>
                 (files s)) (socket s) (log s) in
    match install_chromedriver driver_paths (selenium_driver_path env) env s0
    with
    | (Raised e, s1) => (Raised e, s1)
    | (Returned _, s1) =>
        match files s1 !! selenium_driver_path env with
        | None => (Raised chromedriver_not_found, s1)
        | Some _ =>
            match getuser env with
            | Raised e => (Raised e, s1)
            | Returned user =>
                (Returned (mkSeleniumDriver (mkDriver data_dir t)
                             (path_join (cwd env) "selenium")
                             (selenium_driver_path env)
                             (chrome_options user env)), s1)
            end
        end
    end.
Proof.
  intros Hdir.
  unfold SeleniumDriver_init, mbind at 1 2 3, M_bind at 1 2 3, ask.
  fold (selenium_driver_path env).
  unfold mkdir_exist_ok at 1. rewrite Hdir. cbv zeta.
  destruct (install_chromedriver _ _ env _) as [[[]|e] s1]; [|done].
  unfold mbind, M_bind. rewrite path_exists_lookup.
  destruct (files s1 !! selenium_driver_path env); [|done].
  unfold lift. by destruct (getuser env).
Qed.

Lemma SeleniumDriver_init_exists data_dir t env s contents :
  files s !! path_join (cwd env) "selenium" = Some contents →
  SeleniumDriver_init data_dir t env s
  = (Raised (Exc FileExistsError
               ("[Errno 17] File exists: " +:+ path_join (cwd env) "selenium")),
     s).
Proof.
  intros Hdir.
  unfold SeleniumDriver_init, mbind at 1 2, M_bind at 1 2, ask.
  unfold mkdir_exist_ok at 1. by rewrite Hdir.
Qed.

(** The constructor of [SeleniumDriver] touches neither the socket nor a
    file other than the installed driver and the directory, unless a
    subprocess writes it. *)
Lemma SeleniumDriver_init_frame data_dir t env s path :
  path ≠ selenium_driver_path env →
  path ≠ dir_entry (path_join (cwd env) "selenium") →
  (∀ cmd, (subprocess_run env cmd).2 !! path = None) →
  files (SeleniumDriver_init data_dir t env s).2 !! path = files s !! path.
Proof.
  intros Hne1 Hne2 Hrun.
  destruct (files s !! path_join (cwd env) "selenium") as [c|] eqn:Hdir.
  { by rewrite (SeleniumDriver_init_exists _ _ _ _ _ Hdir). }
  rewrite (SeleniumDriver_init_run _ _ _ _ Hdir). cbv zeta.
  match goal with
  | |- context [install_chromedriver ?ps ?dst env ?s0] =>
      pose proof (install_chromedriver_frame dst env ps s0) as [_ Hfiles];
      specialize (Hfiles path Hne1 Hrun);
      destruct (install_chromedriver ps dst env s0) as [[[]|e] s1]
  end; cbn [snd files] in Hfiles.
  - assert (Hpath : files s1 !! path = files s !! path)
      by (by rewrite Hfiles, lookup_insert_ne).
    destruct (files s1 !! selenium_driver_path env); [|done].
    by destruct (getuser env).
  - cbn [snd]. by rewrite Hfiles, lookup_insert_ne.
Qed.

(** Without a chromedriver the constructor raises once the directory is
    made. *)
Lemma SeleniumDriver_init_without data_dir t env s :
  files s !! "/usr/bin/chromedriver" = None →
  files s !! "/usr/local/bin/chromedriver" = None →
  files s !! selenium_driver_path env = None →
  files s !! path_join (cwd env) "selenium" = None →
  SeleniumDriver_init data_dir t env s
  = (Raised chromedriver_not_found,
     mkState (<[dir_entry (path_join (cwd env) "selenium") := EmptyString]>
                (files s)) (socket s) (log s)).
Proof.
  intros H1 H2 H3 Hdir.
  rewrite (SeleniumDriver_init_run _ _ _ _ Hdir). cbv zeta.
  destruct (system_path_not_dir (path_join (cwd env) "selenium"))
    as [Hne1 Hne2].
  rewrite install_chromedriver_none
    by (cbn [files]; by rewrite lookup_insert_ne).
  cbn [files]. rewrite lookup_insert_ne
    by (intros Heq; by apply (selenium_driver_path_not_dir env
                                (path_join (cwd env) "selenium"))).
  by rewrite H3.
Qed.

(** X15: without a chromedriver at /usr/bin, at /usr/local/bin and under
    [selenium/] the constructor of [SeleniumDriver] raises: the
    [FileExistsError] of [mkdir] when [selenium] is a regular file, and
    otherwise, once the directory is made, the [Exception] that names the
    two system paths.  Nothing is logged and no other file is touched. *)
Theorem SeleniumDriver_init_not_found data_dir t env s :
  files s !! "/usr/bin/chromedriver" = None →
  files s !! "/usr/local/bin/chromedriver" = None →
  files s !! selenium_driver_path env = None →
  let selenium_path := path_join (cwd env) "selenium" in
  let outcome := SeleniumDriver_init data_dir t env s in
  match files s !! selenium_path with
  | Some _ => raises FileExistsError outcome.1 ∧ outcome.2 = s
  | None =>
      outcome.1 = Raised chromedriver_not_found ∧
      files outcome.2 = <[dir_entry selenium_path := EmptyString]> (files s)
  end ∧
  log outcome.2 = log s ∧
  socket outcome.2 = socket s.
Proof.
  intros H1 H2 H3 selenium_path outcome. unfold outcome, selenium_path.
  destruct (files s !! path_join (cwd env) "selenium") as [c|] eqn:Hdir.
  - by rewrite (SeleniumDriver_init_exists _ _ _ _ _ Hdir).
  - by rewrite SeleniumDriver_init_without.
Qed.

Lemma SeleniumDriver_init_not_found_witness :
  SeleniumDriver_init "/app/data" 15 quiet_env initial_state
  = (Raised chromedriver_not_found,
     mkState {["/app/selenium/" := EmptyString]} [] []).
Proof.
  pose proof (SeleniumDriver_init_not_found "/app/data" 15 quiet_env
                initial_state eq_refl eq_refl eq_refl) as [[Hraised Hfiles] _].
  destruct (SeleniumDriver_init "/app/data" 15 quiet_env initial_state)
    as [outcome [files' socket' log']] eqn:Hinit.
  cbn [fst snd files] in Hraised, Hfiles. subst outcome files'.
  rewrite <- Hinit. vm_compute. reflexivity.
Defined.



(** X17: the browser is started with --no-sandbox exactly when the
    process runs as root, and always headless with the eager page load
    strategy. *)
Theorem SeleniumDriver_init_options data_dir t env s d s' :
  SeleniumDriver_init data_dir t env s = (Returned d, s') →
  (In "--no-sandbox" (arguments (options d)) ↔ getuser env = "root") ∧
  In "--headless" (arguments (options d)) ∧
  page_load_strategy (options d) = "eager".
Proof.
  intros (user & Huser & -> & _)%SeleniumDriver_init_returned.
  rewrite Huser. unfold chrome_options, returns_string.
  cbn [options arguments page_load_strategy].
  destruct (String.eqb_spec user "root") as [->|Hroot].
  - split; [|split; [right; by left | done]]. split; [done | by left].
  - split; [|split; [by left | done]]. split; [|by intros [= ?]].
    cbn [app In]. unfold dquote.
    intros [H|[H|[H|[H|[H|[H|[H|[]]]]]]]]; discriminate H.
Qed.

Lemma SeleniumDriver_init_options_witness :
  ∃ d, In "--no-sandbox" (arguments (options d)) ↔ getuser quiet_env = "root".
Proof.
  eexists.
  exact (proj1 (SeleniumDriver_init_options "/app/data" 15 quiet_env
                  installed_state _ _ eq_refl)).
Defined.

(** X18: the constructor of [PuppeteerDriver] raises [Exception] exactly
    when [scrape.js] is missing next to [driver.py]; it changes nothing. *)
Theorem PuppeteerDriver_init_fails_iff data_dir t env s :
  let outcome := PuppeteerDriver_init data_dir t env s in
  (raises Exception outcome.1 ↔ files s !! scrape_script_path env = None) ∧
  (is_raised outcome.1 ↔ files s !! scrape_script_path env = None) ∧
  outcome.2 = s.
Proof.
  intros outcome. unfold outcome. rewrite PuppeteerDriver_init_found.
  destruct (files s !! scrape_script_path env); cbn;
    repeat split; try done; tauto.
Qed.

(** ** [DriverRepo] and [init_drivers] *)

(** X19: a missing dependency stops the start-up instead of surfacing at
    the first fetch: [init_drivers] raises when there is no chromedriver
    at /usr/bin, at /usr/local/bin and under [selenium/], and it raises
    when [scrape.js] is missing (and no subprocess of the chromedriver
    patch writes it). *)
Theorem init_drivers_missing_dependency config env s :
  files s !! "/usr/bin/chromedriver" = None ∧
  files s !! "/usr/local/bin/chromedriver" = None ∧
  files s !! selenium_driver_path env = None
  ∨
  files s !! scrape_script_path env = None ∧
  (∀ cmd, (subprocess_run env cmd).2 !! scrape_script_path env = None) →
  is_raised (init_drivers config env s).1.
Proof.
  intros Hmissing. unfold init_drivers, mbind, M_bind, lift.
  destruct (effective_timeout config) as [timeout|e]; [|done].
  rewrite DriverRepo_init_found. cbv zeta.
  destruct (files s !! path_join (cwd env) "data") as [c|]; [done|].
  set (s0 := mkState _ (socket s) (log s)).
  destruct Hmissing as [(H1 & H2 & H3) | [Hscript Hrun]].
  - destruct (system_path_not_dir (path_join (cwd env) "data"))
      as [Hne1 Hne2].
    destruct (files s0 !! path_join (cwd env) "selenium") as [c|] eqn:Hdir.
    + by rewrite (SeleniumDriver_init_exists _ _ _ _ _ Hdir).
    + rewrite SeleniumDriver_init_without; [done| | |
        |done]; unfold s0; cbn [files]; rewrite lookup_insert_ne;
        done || apply not_eq_sym, selenium_driver_path_not_dir.
  - pose proof (SeleniumDriver_init_frame (path_join (cwd env) "data")
                  timeout env s0 (scrape_script_path env)
                  (not_eq_sym (selenium_driver_path_not_script env env))
                  (scrape_script_path_not_dir env _) Hrun) as Hframe.
    destruct (SeleniumDriver_init _ timeout env s0) as [[sd|e] s1]; [|done].
    cbn [snd] in Hframe. rewrite Hframe. unfold s0. cbn [files].
    rewrite lookup_insert_ne by apply not_eq_sym, scrape_script_path_not_dir.
    by rewrite Hscript.
Qed.

Lemma init_drivers_missing_dependency_witness :
  is_raised (init_drivers (mkConfig 30) quiet_env
               (mkState {["/usr/bin/chromedriver" := "ELF chromedriver"]}
                  [] [])).1.
Proof.
  apply init_drivers_missing_dependency. right. split.
  - vm_compute. reflexivity.
  - intros cmd. vm_compute. reflexivity.
Defined.

(** X20: every driver of a repository works in the same directory,
    [<cwd>/data], which is also the repository's own; building the
    repository opens no connection. *)
Theorem init_drivers_shared_data_dir config env s repo s' :
  init_drivers config env s = (Returned repo, s') →
  Forall (λ b, data_dir (backend_base b) = path_join (cwd env) "data")
    (backends repo) ∧
  repo_data_dir repo = path_join (cwd env) "data" ∧
  socket s' = socket s.
Proof.
  intros (t & _ & Hinit%DriverRepo_init_bases)%init_drivers_returned.
  destruct Hinit as (Hbases & Hdir & Hsock).
  split; [|done].
  eapply Forall_impl; [exact Hbases|]. by intros b ->.
Qed.

Lemma init_drivers_shared_data_dir_witness :
  ∃ repo s',
    init_drivers (mkConfig 30) quiet_env installed_state = (Returned repo, s') ∧
    repo_data_dir repo = "/app/data".
Proof.
  eexists _, _. split; [vm_compute; reflexivity|].
  exact (proj1 (proj2 (init_drivers_shared_data_dir (mkConfig 30) quiet_env
                         installed_state _ _ eq_refl))).
Defined.


